(** * A shallow embedding of the WRP test harness

    The development follows two source files:

    - [test_wrp_helpers.py]: transcript segmentation
      ([extract_response_content]), JSON extraction
      ([extract_json_from_response]) and validation
      ([validate_json_response]);
    - [test_wrp_framework.py]: the test data model, the loader, the process
      driver ([_execute_wrp_subprocess]), one trial
      ([_run_single_test_iteration]) and the robustness loop ([run_test]).

    Conventions of the model.

    - A Python [str] is a [string]; one [ascii] stands for one character, so
      the model covers text whose code points are below 256.
    - Python exceptions are values of [exn] (a class tag and the text of
      [str(e)]); a function that may raise returns a [result].
    - JSON / YAML data is a [value].  Numbers are Python [int]s (unbounded
      integers); numbers with a fraction or an exponent are outside the model.
    - [json.loads] and [jsonschema.validate] are third-party code: the
      embedding takes them through the class [Libraries].
    - The child process, the clock and the file system are the environment:
      a [world] carries an oracle for the children and the log of what the
      driver did to them. *)

From Stdlib Require Import String Ascii List ZArith Lia Bool DecimalString.
Import ListNotations.
Local Open Scope string_scope.
Local Open Scope nat_scope.

(** ** Python runtime primitives *)

Module Py.

Definition chr (n : nat) : string := String (ascii_of_nat n) EmptyString.

(** ["\n"] and the double quote, which string literals cannot hold. *)
Definition nl : string := chr 10.
Definition dq : string := chr 34.

(** [str.isspace] on one character, for code points below 256; the same
    class is what [\s] matches in [re] on [str] patterns. *)
Definition isspace (c : ascii) : bool :=
  let n := nat_of_ascii c in
  ((9 <=? n) && (n <=? 13)) || ((28 <=? n) && (n <=? 32))
  || (n =? 133) || (n =? 160).

Fixpoint lstrip (s : string) : string :=
  match s with
  | EmptyString => EmptyString
  | String c s' => if isspace c then lstrip s' else s
  end.

Fixpoint rstrip (s : string) : string :=
  match s with
  | EmptyString => EmptyString
  | String c s' =>
      match rstrip s' with
      | EmptyString => if isspace c then EmptyString else String c EmptyString
      | r => String c r
      end
  end.

(** [s.strip()] *)
Definition strip (s : string) : string := rstrip (lstrip s).

(** [s.startswith(p)] *)
Definition startswith (p s : string) : bool := prefix p s.

(** [s.find(sub, start)]; [None] is Python's [-1]. *)
Definition find (sub s : string) (start : nat) : option nat :=
  index start sub s.

(** [sub in s] *)
Definition contains (sub s : string) : bool :=
  match find sub s 0 with Some _ => true | None => false end.

(** [s[a:b]] for [0 <= a], [0 <= b] *)
Definition slice (s : string) (a b : nat) : string := substring a (b - a) s.

(** [s[:n]] *)
Definition take (n : nat) (s : string) : string := substring 0 n s.

Fixpoint drop (n : nat) (s : string) : string :=
  match n, s with
  | O, _ => s
  | S n', String _ s' => drop n' s'
  | S _, EmptyString => EmptyString
  end.

(** [str(n)] for an [int] *)
Definition str_of_nat (n : nat) : string :=
  NilZero.string_of_uint (Nat.to_uint n).
Definition str_of_Z (z : Z) : string :=
  NilZero.string_of_int (Z.to_int z).

(** [s.lower()] on one character and on a string. *)
Definition lower_char (c : ascii) : ascii :=
  let n := nat_of_ascii c in
  if ((65 <=? n) && (n <=? 90))
     || ((192 <=? n) && (n <=? 222) && negb (n =? 215))
  then ascii_of_nat (n + 32) else c.

Fixpoint lower (s : string) : string :=
  match s with
  | EmptyString => EmptyString
  | String c s' => String (lower_char c) (lower s')
  end.

(** *** Exceptions *)

Inductive exn_class : Set :=
| RuntimeError | TimeoutError | ValueError | AssertionError | IndexError
| TypeError | KeyError | AttributeError | FileNotFoundError | OSError
| SchemaError.

(** An exception: its class and [str(e)]. *)
Record exn : Set := mk_exn { exn_class_of : exn_class; str_of_exn : string }.

Inductive result (A : Type) : Type :=
| Ok (a : A)
| Raise (e : exn).
Arguments Ok {A} a.
Arguments Raise {A} e.

Definition bind {A B} (m : result A) (k : A -> result B) : result B :=
  match m with
  | Ok a => k a
  | Raise e => Raise e
  end.

(** [try: m  except Exception as e: h e] *)
Definition try_except {A} (m : result A) (h : exn -> result A) : result A :=
  match m with
  | Ok a => Ok a
  | Raise e => h e
  end.

(** *** JSON / YAML values *)

#[warnings="-register-all"] Inductive value : Set :=
| VNone
| VBool (b : bool)
| VInt (z : Z)
| VStr (s : string)
| VList (l : list value)
| VDict (d : list (string * value)).

(** A [dict] with [str] keys, in insertion order. *)
Definition dict : Set := list (string * value).

Fixpoint dict_get (d : dict) (k : string) : option value :=
  match d with
  | [] => None
  | (k', v) :: d' => if (k' =? k)%string then Some v else dict_get d' k
  end.

(** [d[k] = v]: an existing key keeps its place. *)
Fixpoint dict_set (d : dict) (k : string) (v : value) : dict :=
  match d with
  | [] => [(k, v)]
  | (k', v') :: d' =>
      if (k' =? k)%string then (k, v) :: d' else (k', v') :: dict_set d' k v
  end.

(** [a == b] on values.  [bool] is a subclass of [int], so [True == 1];
    dictionaries compare without regard to order. *)
Fixpoint py_eq (a b : value) {struct a} : bool :=
  match a, b with
  | VNone, VNone => true
  | VBool x, VBool y => Bool.eqb x y
  | VBool x, VInt y => (Z.b2z x =? y)%Z
  | VInt x, VBool y => (x =? Z.b2z y)%Z
  | VInt x, VInt y => (x =? y)%Z
  | VStr x, VStr y => (x =? y)%string
  | VList xs, VList ys =>
      (fix go (xs : list value) (ys : list value) {struct xs} : bool :=
         match xs, ys with
         | [], [] => true
         | x :: xs', y :: ys' => py_eq x y && go xs' ys'
         | _, _ => false
         end) xs ys
  | VDict d1, VDict d2 =>
      (length d1 =? length d2)
      && (fix go (d : list (string * value)) {struct d} : bool :=
            match d with
            | [] => true
            | (k, v) :: d' =>
                match dict_get d2 k with
                | Some v' => py_eq v v'
                | None => false
                end && go d'
            end) d1
  | _, _ => false
  end.

(** [l.append(x)] *)
Definition append {A : Type} (l : list A) (x : A) : list A := (l ++ [x])%list.

(** [bool(d)] for a dictionary. *)
Definition truthy_dict (d : dict) : bool :=
  match d with [] => false | _ => true end.

(** *** [repr] and [str] of values *)

Definition hex_digit (n : nat) : string :=
  substring n 1 "0123456789abcdef".

Definition printable (c : ascii) : bool :=
  let n := nat_of_ascii c in
  ((32 <=? n) && (n <=? 126)) || ((161 <=? n) && negb (n =? 173)).

Definition repr_char (quote : ascii) (c : ascii) : string :=
  let n := nat_of_ascii c in
  if (n =? 92) then "\\"
  else if Ascii.eqb c quote then String "\" (String quote EmptyString)
  else if (n =? 10) then "\n"
  else if (n =? 13) then "\r"
  else if (n =? 9) then "\t"
  else if printable c then String c EmptyString
  else "\x" ++ hex_digit (n / 16) ++ hex_digit (n mod 16).

Fixpoint repr_chars (quote : ascii) (s : string) : string :=
  match s with
  | EmptyString => EmptyString
  | String c s' => repr_char quote c ++ repr_chars quote s'
  end.

(** [repr(s)]: single quotes unless the text has a single quote and no
    double quote. *)
Definition repr_str (s : string) : string :=
  let quote :=
    if contains "'" s && negb (contains dq s)
    then ascii_of_nat 34 else "'"%char in
  String quote (repr_chars quote s) ++ String quote EmptyString.

Fixpoint py_repr (v : value) : string :=
  match v with
  | VNone => "None"
  | VBool true => "True"
  | VBool false => "False"
  | VInt z => str_of_Z z
  | VStr s => repr_str s
  | VList l => "[" ++ String.concat ", " (map py_repr l) ++ "]"
  | VDict d =>
      "{" ++ String.concat ", "
               (map (fun kv => match kv with
                               | (k, x) => repr_str k ++ ": " ++ py_repr x
                               end) d) ++ "}"
  end.

(** [str(v)], what an f-string writes for [{v}]. *)
Definition py_str (v : value) : string :=
  match v with
  | VStr s => s
  | _ => py_repr v
  end.

(** [key in container] for a [str] key. *)
Definition py_contains (container : value) (key : string) : result bool :=
  match container with
  | VDict d => Ok (match dict_get d key with Some _ => true | None => false end)
  | VList l => Ok (existsb (fun x => py_eq x (VStr key)) l)
  | VStr s => Ok (contains key s)
  | VNone => Raise (mk_exn TypeError "argument of type 'NoneType' is not iterable")
  | VBool _ => Raise (mk_exn TypeError "argument of type 'bool' is not iterable")
  | VInt _ => Raise (mk_exn TypeError "argument of type 'int' is not iterable")
  end.

(** [container[key]] for a [str] key. *)
Definition py_getitem (container : value) (key : string) : result value :=
  match container with
  | VDict d =>
      match dict_get d key with
      | Some v => Ok v
      | None => Raise (mk_exn KeyError (repr_str key))
      end
  | VList _ =>
      Raise (mk_exn TypeError "list indices must be integers or slices, not str")
  | VStr _ =>
      Raise (mk_exn TypeError "string indices must be integers, not 'str'")
  | VNone => Raise (mk_exn TypeError "'NoneType' object is not subscriptable")
  | VBool _ => Raise (mk_exn TypeError "'bool' object is not subscriptable")
  | VInt _ => Raise (mk_exn TypeError "'int' object is not subscriptable")
  end.

End Py.

Export Py.

Declare Scope py_scope.
Notation "x <- m ;; k" := (bind m (fun x => k))
  (at level 61, m at next level, right associativity) : py_scope.
Local Open Scope py_scope.

(** ** Third-party libraries *)

(** What [jsonschema.validate(instance, schema)] does. *)
Inductive schema_outcome : Set :=
| SchemaValid
| SchemaViolation (message : string)   (* ValidationError, [e.message] *)
| SchemaInvalid (message : string).    (* SchemaError: the schema is wrong *)

(** [json_loads s] is [inl v] when [json.loads(s)] returns [v] and [inr m]
    when it raises [JSONDecodeError] with [str(e) = m]. *)
Class Libraries : Type := {
  json_loads : string -> value + string;
  jsonschema_validate : value -> dict -> schema_outcome
}.

(** ** test_wrp_helpers.py *)

Module Helpers.

(** *** [extract_response_content]

    [re.findall] with the pattern

      "Query:\s*\n(.*?)(?=\nQuery:|\nSession with|\nExiting\.\.\.|\Z)"

    and [re.DOTALL].  The tail [(.*?)(?=...)] always matches (at the latest
    at the end of the text), so the greedy [\s*\n] settles on the last
    newline of the white-space run after [Query:]; the lazy group then stops
    at the first position where the look-ahead holds. *)

(** Length of [\s*\n] at the head of [s], if it matches. *)
Fixpoint ws_through_newline (s : string) : option nat :=
  match s with
  | EmptyString => None
  | String c s' =>
      if isspace c then
        match ws_through_newline s' with
        | Some n => Some (S n)
        | None => if Ascii.eqb c "010" then Some 1 else None
        end
      else None
  end.

(** The look-ahead: a newline and [Query:], [Session with] or [Exiting...],
    or the end of the text. *)
Definition end_of_response (s : string) : bool :=
  startswith (nl ++ "Query:") s
  || startswith (nl ++ "Session with") s
  || startswith (nl ++ "Exiting...") s
  || (s =? EmptyString)%string.

(** The lazy group: the text up to the first position where the
    look-ahead holds. *)
Fixpoint response_body (s : string) : string :=
  if end_of_response s then EmptyString
  else match s with
       | EmptyString => EmptyString
       | String c s' => String c (response_body s')
       end.

(** The groups of the successive matches; [skip] characters belong to the
    match just found. *)
Fixpoint findall_query_from (skip : nat) (s : string) : list string :=
  match s with
  | EmptyString => []
  | String _ s' =>
      match skip with
      | S k => findall_query_from k s'
      | O =>
          if startswith "Query:" s then
            match ws_through_newline (drop 6 s) with
            | Some w =>
                let body := response_body (drop (6 + w) s) in
                body :: findall_query_from (5 + w + String.length body) s'
            | None => findall_query_from 0 s'
            end
          else findall_query_from 0 s'
      end
  end.

Definition findall_query (full_output : string) : list string :=
  findall_query_from 0 full_output.

(** The [for match in matches] loop. *)
Fixpoint collect_responses (matches responses : list string) : list string :=
  match matches with
  | [] => responses
  | m :: matches' =>
      let cleaned := strip m in
      if negb (cleaned =? EmptyString)%string
         && negb (startswith "Exiting" cleaned)
         && negb (startswith "Session with" cleaned)
      then collect_responses matches' (append responses cleaned)
      else collect_responses matches' responses
  end.

Definition extract_response_content (full_output : string) : list string :=
  let matches := findall_query full_output in
  collect_responses matches [].

(** *** [extract_json_from_response] *)

(** [re.findall] with [json_pattern] (line 58): an opening brace, text
    without braces in which brace-free objects may stand, a closing brace;
    that is, an object with at most one level of nested objects.  After the opening
    brace the match is forced: [object_body nested s] is the number of
    characters up to and including the closing brace. *)
Fixpoint object_body (nested : bool) (s : string) : option nat :=
  match s with
  | EmptyString => None
  | String c s' =>
      if Ascii.eqb c "{" then
        if nested then None else option_map S (object_body true s')
      else if Ascii.eqb c "}" then
        if nested then option_map S (object_body false s') else Some 1
      else option_map S (object_body nested s')
  end.

Fixpoint findall_json_pattern_from (skip : nat) (s : string) : list string :=
  match s with
  | EmptyString => []
  | String c s' =>
      match skip with
      | S k => findall_json_pattern_from k s'
      | O =>
          if Ascii.eqb c "{" then
            match object_body false s' with
            | Some n => take (S n) s :: findall_json_pattern_from n s'
            | None => findall_json_pattern_from 0 s'
            end
          else findall_json_pattern_from 0 s'
      end
  end.

Definition findall_json_pattern (response : string) : list string :=
  findall_json_pattern_from 0 response.

(** One strategy either returns the parsed value or leaves the list of
    attempts, extended or not. *)
Inductive strategy_outcome : Set :=
| Return (v : value)
| Continue (extraction_attempts : list string).

Section Extraction.
Context `{Libraries}.

(** Lines 31-42: the fenced block labelled json. *)
Definition markdown_json_block (response : string)
    (extraction_attempts : list string) : strategy_outcome :=
  match find "```json" response 0 with
  | Some opening =>
      let start := opening + 7 in
      match find "```" response start with
      | Some end_ =>
          let json_text := strip (slice response start end_) in
          match json_loads json_text with
          | inl v => Return v
          | inr e =>
              Continue (append extraction_attempts
               ("Markdown JSON blocks: JSONDecodeError - " ++ e))
          end
      | None =>
          Continue (append extraction_attempts
               ("Markdown JSON blocks: Found opening ```json but no closing ```"))
      end
  | None => Continue extraction_attempts
  end.

(** Lines 44-55: any fenced block. *)
Definition generic_code_block (response : string)
    (extraction_attempts : list string) : strategy_outcome :=
  match find "```" response 0 with
  | Some opening =>
      let start := opening + 3 in
      match find "```" response start with
      | Some end_ =>
          let json_text := strip (slice response start end_) in
          match json_loads json_text with
          | inl v => Return v
          | inr e =>
              Continue (append extraction_attempts
               ("Generic code blocks: JSONDecodeError - " ++ e))
          end
      | None =>
          Continue (append extraction_attempts
               ("Generic code blocks: Found opening ``` but no closing ```"))
      end
  | None => Continue extraction_attempts
  end.

(** The loop [for i, match in enumerate(matches)]. *)
Fixpoint try_pattern_matches (i : nat) (matches : list string)
    (extraction_attempts : list string) : strategy_outcome :=
  match matches with
  | [] => Continue extraction_attempts
  | m :: matches' =>
      match json_loads (strip m) with
      | inl v => Return v
      | inr e =>
          try_pattern_matches (S i) matches'
            (append extraction_attempts
               ("Regex pattern match " ++ str_of_nat (i + 1)
                ++ ": JSONDecodeError - " ++ e))
      end
  end.

(** Lines 57-68: the brace pattern. *)
Definition regex_pattern (response : string)
    (extraction_attempts : list string) : strategy_outcome :=
  let matches := findall_json_pattern response in
  match matches with
  | [] =>
      Continue (append extraction_attempts
               ("Regex pattern search: No JSON-like patterns found"))
  | _ => try_pattern_matches 0 matches extraction_attempts
  end.

(** Lines 70-74: the whole response. *)
Definition direct_parsing (response : string)
    (extraction_attempts : list string) : strategy_outcome :=
  match json_loads (strip response) with
  | inl v => Return v
  | inr e =>
      Continue (append extraction_attempts
               ("Direct parsing: JSONDecodeError - " ++ e))
  end.

(** Lines 76-80. *)
Definition error_msg (extraction_attempts : list string) (response : string)
  : string :=
  "No valid JSON found in response. Attempted extractions:" ++ nl
  ++ String.concat EmptyString
       (map (fun attempt => "  - " ++ attempt ++ nl) extraction_attempts)
  ++ nl ++ "Response content (first 500 chars): " ++ take 500 response.

(** A strategy that returns ends the function; otherwise the next one runs
    with the attempts recorded so far. *)
Definition then_try (o : strategy_outcome)
    (next : list string -> strategy_outcome) : strategy_outcome :=
  match o with
  | Return v => Return v
  | Continue extraction_attempts => next extraction_attempts
  end.

Definition run_strategies (response : string) : strategy_outcome :=
  then_try
    (then_try
       (then_try (markdown_json_block response [])
                 (generic_code_block response))
       (regex_pattern response))
    (direct_parsing response).

Definition extract_json_from_response (response : string) : result value :=
  match run_strategies response with
  | Return v => Ok v
  | Continue extraction_attempts =>
      Raise (mk_exn ValueError (error_msg extraction_attempts response))
  end.

(** *** [validate_json_response] *)

(** The body of [for key, expected_value in expected_json.items()]. *)
Fixpoint check_expected (response_json : value) (items : dict) : result unit :=
  match items with
  | [] => Ok tt
  | (key, expected_value) :: items' =>
      present <- py_contains response_json key ;;
      if negb present then
        Raise (mk_exn AssertionError
                 ("Missing expected key '" ++ key ++ "' in response"))
      else
        actual_value <- py_getitem response_json key ;;
        if negb (py_eq actual_value expected_value) then
          Raise (mk_exn AssertionError
                   ("Expected " ++ key ++ "='" ++ py_str expected_value
                    ++ "', got '" ++ py_str actual_value ++ "'"))
        else check_expected response_json items'
  end.

(** Lines 90-94. *)
Definition check_schema (response_json : value) (json_schema : dict)
  : result unit :=
  if truthy_dict json_schema then
    match jsonschema_validate response_json json_schema with
    | SchemaValid => Ok tt
    | SchemaViolation message =>
        Raise (mk_exn AssertionError
                 ("JSON schema validation failed: " ++ message))
    | SchemaInvalid message => Raise (mk_exn SchemaError message)
    end
  else Ok tt.

Definition validate_json_response (response_json : value)
    (expected_json json_schema : dict) : result unit :=
  _ <- check_schema response_json json_schema ;;
  if truthy_dict expected_json then check_expected response_json expected_json
  else Ok tt.

End Extraction.

End Helpers.

(** ** test_wrp_framework.py *)

Module Framework.
Import Helpers.

Definition TEST_YAML_PATH_PREFIX : string := "./bin/confs/test/".

(** *** The test data model *)

Record WRPTestTurn : Set := mk_turn {
  prompt : string;
  expected_json : dict;
  json_schema : dict
}.

Record WRPTestCase : Set := mk_case {
  name : string;
  description : string;
  mcps : value;
  timeout : Z;
  turns : list WRPTestTurn
}.

(** The parsed YAML document, seen through the keys the loader reads; [None]
    is an absent key.  Values that are present have the types the source
    annotates. *)
Record turn_data : Set := mk_turn_data {
  yaml_prompt : option string;
  yaml_expected_json : option dict;
  yaml_json_schema : option dict
}.

Record test_data : Set := mk_test_data {
  yaml_name : option string;
  yaml_description : option string;
  yaml_mcps : option value;
  yaml_timeout : option Z;
  yaml_turns : option (list turn_data)
}.

Record yaml_document : Set := mk_document {
  yaml_tests : option (list test_data)
}.

(** [d[key]] and [d.get(key, default)] on such a view. *)
Definition getitem {A : Type} (field : option A) (key : string) : result A :=
  match field with
  | Some a => Ok a
  | None => Raise (mk_exn KeyError (repr_str key))
  end.

Definition get {A : Type} (field : option A) (default : A) : A :=
  match field with
  | Some a => a
  | None => default
  end.

(** Lines 54-59: [for turn_data in turns_data]. *)
Fixpoint build_turns (turns_data : list turn_data) (turns : list WRPTestTurn)
  : result (list WRPTestTurn) :=
  match turns_data with
  | [] => Ok turns
  | td :: turns_data' =>
      p <- getitem (yaml_prompt td) "prompt" ;;
      let turn := mk_turn p (get (yaml_expected_json td) [])
                            (get (yaml_json_schema td) []) in
      build_turns turns_data' (append turns turn)
  end.

(** [WRPTestCase.__init__] *)
Definition WRPTestCase_init (td : test_data) : result WRPTestCase :=
  name_ <- getitem (yaml_name td) "name" ;;
  description_ <- getitem (yaml_description td) "description" ;;
  mcps_ <- getitem (yaml_mcps td) "mcps" ;;
  let timeout_ := get (yaml_timeout td) 30%Z in
  let turns_data := get (yaml_turns td) [] in
  turns_ <- build_turns turns_data [] ;;
  Ok (mk_case name_ description_ mcps_ timeout_ turns_).

(** What the file system holds at the path of the test definitions. *)
Inductive file_state : Set :=
| Missing                              (* [os.path.exists] is false *)
| Unreadable (message : string)        (* [open] or [yaml.safe_load] raises *)
| EmptyDocument                        (* [yaml.safe_load] returns [None] *)
| Parsed (data : yaml_document).

(** [[WRPTestCase(test) for test in ...]] *)
Fixpoint construct_cases (tests : list test_data) : result (list WRPTestCase) :=
  match tests with
  | [] => Ok []
  | test :: tests' =>
      c <- WRPTestCase_init test ;;
      cs <- construct_cases tests' ;;
      Ok (c :: cs)
  end.

Definition load_tests (fs : string -> file_state) (test_cases_path : string)
  : result (list WRPTestCase) :=
  match fs test_cases_path with
  | Missing =>
      Raise (mk_exn FileNotFoundError
               ("Test file not found: " ++ test_cases_path))
  | Unreadable e =>
      Raise (mk_exn ValueError
               ("Failure while reading test yaml " ++ test_cases_path
                ++ ": " ++ e))
  | EmptyDocument =>
      Raise (mk_exn AttributeError "'NoneType' object has no attribute 'get'")
  | Parsed data => construct_cases (get (yaml_tests data) [])
  end.

Record WRPTestRunner : Set := mk_runner {
  iteration_count : Z;
  wait_time : Z;
  wrp_script : string;
  tests : list WRPTestCase
}.

(** [WRPTestRunner.__init__] *)
Definition WRPTestRunner_init (fs : string -> file_state)
    (test_cases_path : string) : result WRPTestRunner :=
  tests_ <- load_tests fs test_cases_path ;;
  Ok (mk_runner 1 3 "bin/wrp.py" tests_).

(** *** The environment *)

(** What [process.communicate] does under [asyncio.wait_for]. *)
Inductive communicate_outcome : Set :=
| Exits (returncode : Z) (stdout stderr : string)
| Hangs.                               (* not done when the timeout expires *)

(** What [asyncio.create_subprocess_exec] does. *)
Inductive spawn_outcome : Type :=
| SpawnFails (e : exn)
| Spawned (respond : string -> communicate_outcome).

Inductive event : Set :=
| EvSpawn (cmd : list string)
| EvCommunicate (input : string) (timeout_ : Z)
| EvKill
| EvWait
| EvSleep (seconds : Z).

Record world : Type := mk_world {
  sys_executable : string;
  child : nat -> spawn_outcome;        (* the n-th process created *)
  spawned : nat;
  log : list event
}.

Definition emit (w : world) (evs : list event) : world :=
  mk_world (sys_executable w) (child w) (spawned w) (log w ++ evs)%list.

Definition next_child (w : world) : world :=
  mk_world (sys_executable w) (child w) (S (spawned w)) (log w).

(** *** The process driver *)

(** Lines 94-124, the body of the outer [try]. *)
Definition execute_wrp_body (self : WRPTestRunner) (wrp_config_path : string)
    (input_text : string) (timeout_ : Z) (w : world) : result string * world :=
  let cmd := [sys_executable w; wrp_script self;
              "--conf=" ++ wrp_config_path] in
  let w := emit w [EvSpawn cmd] in
  match child w (spawned w) with
  | SpawnFails e => (Raise e, next_child w)
  | Spawned respond =>
      let w := emit (next_child w) [EvCommunicate input_text timeout_] in
      match respond input_text with
      | Exits returncode stdout stderr =>
          if negb (returncode =? 0)%Z then
            (Raise (mk_exn RuntimeError
                      ("WRP failed with code " ++ str_of_Z returncode
                       ++ ": " ++ stderr)), w)
          else (Ok (strip stdout), w)
      | Hangs =>
          let w := emit w [EvKill; EvWait] in
          (Raise (mk_exn TimeoutError
                    ("WRP process timed out after " ++ str_of_Z timeout_
                     ++ " seconds")), w)
      end
  end.

Definition _execute_wrp_subprocess (self : WRPTestRunner) (provider : string)
    (input_text : string) (timeout_ : Z) (w : world) : result string * world :=
  let wrp_config_path :=
    TEST_YAML_PATH_PREFIX ++ lower provider ++ "_arxiv.yaml" in
  let (r, w') := execute_wrp_body self wrp_config_path input_text timeout_ w in
  (try_except r
     (fun e => Raise (mk_exn RuntimeError
                        ("WRP execution failed: " ++ str_of_exn e))),
   w').

(** *** One trial *)

(** The value under ['response']: the list of responses of a trial that
    passed, a string otherwise. *)
Inductive response_field : Set :=
| RespText (s : string)
| RespList (responses : list string).

Record iteration_result : Set := mk_iteration {
  iter_passed : bool;
  iter_response : response_field;
  iter_response_json : option (list value);
  iter_error : option string;
  iter_iteration : option nat          (* only the handler of [run_test] sets it *)
}.

(** Lines 175-177: the multi-turn branch. *)
Fixpoint add_prompts (turns_ : list WRPTestTurn) (input : string) : string :=
  match turns_ with
  | [] => input
  | turn :: turns' => add_prompts turns' (input ++ prompt turn ++ nl)
  end.

Definition multi_turn_input (turns_ : list WRPTestTurn) : string :=
  add_prompts turns_ EmptyString ++ "quit" ++ nl.

(** Line 181: the single-turn branch. *)
Definition single_turn_input (turns_ : list WRPTestTurn) : result string :=
  match turns_ with
  | turn :: _ => Ok (prompt turn ++ nl ++ "quit" ++ nl)
  | [] => Raise (mk_exn IndexError "list index out of range")
  end.

(** Lines 172-181. *)
Definition build_input (test_case : WRPTestCase) : result string :=
  if 1 <? length (turns test_case)
  then Ok (multi_turn_input (turns test_case))
  else single_turn_input (turns test_case).

Section Trial.
Context `{Libraries}.

(** Lines 194-204: [for i, (response, turn) in enumerate(zip(...))]. *)
Fixpoint validate_turns (i : nat) (pairs : list (string * WRPTestTurn))
    (all_response_json : list value) : result (list value) :=
  match pairs with
  | [] => Ok all_response_json
  | (response, turn) :: pairs' =>
      match (response_json <- extract_json_from_response response ;;
             _ <- validate_json_response response_json
                    (expected_json turn) (json_schema turn) ;;
             Ok response_json) with
      | Ok response_json =>
          validate_turns (S i) pairs' (append all_response_json response_json)
      | Raise e =>
          Raise (mk_exn RuntimeError
                   ("Turn " ++ str_of_nat (i + 1) ++ " failed: "
                    ++ str_of_exn e))
      end
  end.

(** Lines 186-211: what follows the subprocess call. *)
Definition check_output (test_case : WRPTestCase) (full_output : string)
  : result iteration_result :=
  let responses := extract_response_content full_output in
  if negb (length responses =? length (turns test_case)) then
    Raise (mk_exn RuntimeError
             ("Expected " ++ str_of_nat (length (turns test_case))
              ++ " responses, got " ++ str_of_nat (length responses)))
  else
    all_response_json <-
      validate_turns 0 (combine responses (turns test_case)) [] ;;
    Ok (mk_iteration true (RespList responses) (Some all_response_json)
                     None None).

(** Lines 172-211, the body of the [try]. *)
Definition iteration_body (self : WRPTestRunner) (test_case : WRPTestCase)
    (provider : string) (w : world) : result iteration_result * world :=
  match build_input test_case with
  | Raise e => (Raise e, w)
  | Ok input =>
      let (r, w') :=
        _execute_wrp_subprocess self provider input (timeout test_case) w in
      match r with
      | Raise e => (Raise e, w')
      | Ok full_output => (check_output test_case full_output, w')
      end
  end.

(** No exception of the model carries a [response] attribute, so
    [getattr(e, 'response', '')] is the empty string. *)
Definition _run_single_test_iteration (self : WRPTestRunner)
    (test_case : WRPTestCase) (provider : string) (w : world)
  : iteration_result * world :=
  let (r, w') := iteration_body self test_case provider w in
  match r with
  | Ok result_ => (result_, w')
  | Raise e =>
      (mk_iteration false (RespText EmptyString) None (Some (str_of_exn e))
                    None, w')
  end.

End Trial.

(** *** The robustness runner *)

Record case_result : Set := mk_case_result {
  passed : bool;
  response : response_field;
  response_json : option (list value);
  error : option string;
  iterations : list iteration_result;
  successful_runs : nat;
  total_runs : Z
}.

(** [iterations[-1]] *)
Fixpoint last_item {A : Type} (l : list A) : result A :=
  match l with
  | [] => Raise (mk_exn IndexError "list index out of range")
  | [x] => Ok x
  | _ :: l' => last_item l'
  end.

Section Runner.

(** The awaited call [self._run_single_test_iteration(test_case, provider)]:
    it returns a result or raises. *)
Variable trial : world -> result iteration_result * world.

(** Lines 141-148: the handler. *)
Definition failed_iteration (e : exn) (iteration : nat) : iteration_result :=
  mk_iteration false (RespText EmptyString) None (Some (str_of_exn e))
               (Some (iteration + 1)).

(** Lines 136-151: the body of the loop, for one value of [iteration]. *)
Definition run_iteration (self : WRPTestRunner) (iteration : nat)
    (st : list iteration_result * nat) (w : world)
  : (list iteration_result * nat) * world :=
  let (iterations_, successful_runs_) := st in
  let (r, w1) := trial w in
  let st1 :=
    match r with
    | Ok result_ =>
        (append iterations_ result_,
         if iter_passed result_ then successful_runs_ + 1 else successful_runs_)
    | Raise e => (append iterations_ (failed_iteration e iteration),
                  successful_runs_)
    end in
  let w2 := if (0 <? wait_time self)%Z
            then emit w1 [EvSleep (wait_time self)] else w1 in
  (st1, w2).

(** Lines 135-151: [for iteration in range(...)], with [n] rounds left. *)
Fixpoint run_iterations (self : WRPTestRunner) (n : nat) (iteration : nat)
    (st : list iteration_result * nat) (w : world)
  : (list iteration_result * nat) * world :=
  match n with
  | O => (st, w)
  | S n' =>
      let (st1, w1) := run_iteration self iteration st w in
      run_iterations self n' (S iteration) st1 w1
  end.

(** Lines 153-167. *)
Definition aggregate (self : WRPTestRunner)
    (iterations_ : list iteration_result) (successful_runs_ : nat)
  : result case_result :=
  let all_passed := (Z.of_nat successful_runs_ =? iteration_count self)%Z in
  let successful_result := List.find iter_passed iterations_ in
  response_ <-
    match successful_result with
    | Some r => Ok (iter_response r)
    | None => l <- last_item iterations_ ;; Ok (iter_response l)
    end ;;
  Ok (mk_case_result
        all_passed
        response_
        match successful_result with
        | Some r => iter_response_json r
        | None => None
        end
        (if all_passed then None
         else Some ("Only " ++ str_of_nat successful_runs_ ++ "/"
                    ++ str_of_Z (iteration_count self)
                    ++ " iterations passed"))
        iterations_
        successful_runs_
        (iteration_count self)).

Definition run_test_with (self : WRPTestRunner) (w : world)
  : result case_result * world :=
  let '(iterations_, successful_runs_, w') :=
    run_iterations self (Z.to_nat (iteration_count self)) 0 ([], 0) w in
  (aggregate self iterations_ successful_runs_, w').

End Runner.

Section RunTest.
Context `{Libraries}.

Definition run_test (self : WRPTestRunner) (test_case : WRPTestCase)
    (provider : string) (w : world) : result case_result * world :=
  run_test_with
    (fun w0 =>
       let (r, w1) := _run_single_test_iteration self test_case provider w0 in
       (Ok r, w1))
    self w.

End RunTest.

End Framework.

(** ** An executable instance of the library interface

    A JSON reader for the values of the model and a schema checker for the
    [required] keyword, so that the harness can be run on concrete
    transcripts.  The theorems below hold for every instance of
    [Libraries]; this one is used for the examples. *)

Module Reference.

Definition json_ws (c : ascii) : bool :=
  let n := nat_of_ascii c in
  (n =? 32) || (n =? 9) || (n =? 10) || (n =? 13).

Fixpoint skip_ws (s : string) : string :=
  match s with
  | EmptyString => EmptyString
  | String c s' => if json_ws c then skip_ws s' else s
  end.

Definition digit_of (c : ascii) : option Z :=
  let n := nat_of_ascii c in
  if (48 <=? n) && (n <=? 57) then Some (Z.of_nat (n - 48)) else None.

Definition hex_of (c : ascii) : option nat :=
  let n := nat_of_ascii c in
  if (48 <=? n) && (n <=? 57) then Some (n - 48)
  else if (97 <=? n) && (n <=? 102) then Some (n - 87)
  else if (65 <=? n) && (n <=? 70) then Some (n - 55)
  else None.

Fixpoint digits (s : string) (acc : Z) : Z * string :=
  match s with
  | EmptyString => (acc, s)
  | String c s' =>
      match digit_of c with
      | Some d => digits s' (acc * 10 + d)%Z
      | None => (acc, s)
      end
  end.

(** An integer literal: [0] or a non-zero digit and more digits; a fraction
    or an exponent makes a float, which the model does not hold. *)
Definition unsigned_int (s : string) : option (Z * string) :=
  match s with
  | EmptyString => None
  | String c s' =>
      match digit_of c with
      | None => None
      | Some d =>
          let (n, rest) := if (d =? 0)%Z then (0%Z, s') else digits s' d in
          match rest with
          | String c' _ =>
              if Ascii.eqb c' "." || Ascii.eqb c' "e" || Ascii.eqb c' "E"
              then None else Some (n, rest)
          | EmptyString => Some (n, rest)
          end
      end
  end.

Definition simple_escape (c : ascii) : option ascii :=
  let n := nat_of_ascii c in
  if (n =? 34) || (n =? 92) || (n =? 47) then Some c
  else if Ascii.eqb c "b" then Some (ascii_of_nat 8)
  else if Ascii.eqb c "f" then Some (ascii_of_nat 12)
  else if Ascii.eqb c "n" then Some (ascii_of_nat 10)
  else if Ascii.eqb c "r" then Some (ascii_of_nat 13)
  else if Ascii.eqb c "t" then Some (ascii_of_nat 9)
  else None.

Definition cons_char (c : ascii) (r : option (string * string))
  : option (string * string) :=
  match r with
  | Some (body, rest) => Some (String c body, rest)
  | None => None
  end.

(** The text of a string after its opening quote, and what follows the
    closing quote. *)
Fixpoint string_body (s : string) : option (string * string) :=
  match s with
  | EmptyString => None
  | String c s' =>
      let n := nat_of_ascii c in
      if n =? 34 then Some (EmptyString, s')
      else if n =? 92 then
        match s' with
        | String "u" (String h1 (String h2 (String h3 (String h4 s'')))) =>
            match hex_of h1, hex_of h2, hex_of h3, hex_of h4 with
            | Some 0, Some 0, Some a, Some b =>
                cons_char (ascii_of_nat (16 * a + b)) (string_body s'')
            | _, _, _, _ => None
            end
        | String e s'' =>
            match simple_escape e with
            | Some c' => cons_char c' (string_body s'')
            | None => None
            end
        | EmptyString => None
        end
      else if n <? 32 then None
      else cons_char c (string_body s')
  end.

Fixpoint parse_value (fuel : nat) (s : string) : option (value * string) :=
  match fuel with
  | O => None
  | S fuel' =>
      match skip_ws s with
      | EmptyString => None
      | String c r as s0 =>
          if Ascii.eqb c "{" then
            match skip_ws r with
            | String "}" r' => Some (VDict [], r')
            | _ => parse_members fuel' r []
            end
          else if Ascii.eqb c "[" then
            match skip_ws r with
            | String "]" r' => Some (VList [], r')
            | _ => parse_elements fuel' r []
            end
          else if nat_of_ascii c =? 34 then
            match string_body r with
            | Some (body, r') => Some (VStr body, r')
            | None => None
            end
          else if prefix "null" s0 then Some (VNone, drop 4 s0)
          else if prefix "true" s0 then Some (VBool true, drop 4 s0)
          else if prefix "false" s0 then Some (VBool false, drop 5 s0)
          else if Ascii.eqb c "-" then
            match unsigned_int r with
            | Some (n, r') => Some (VInt (- n), r')
            | None => None
            end
          else
            match unsigned_int s0 with
            | Some (n, r') => Some (VInt n, r')
            | None => None
            end
      end
  end
with parse_elements (fuel : nat) (s : string) (acc : list value)
  : option (value * string) :=
  match fuel with
  | O => None
  | S fuel' =>
      match parse_value fuel' s with
      | Some (v, r) =>
          match skip_ws r with
          | String "," r' => parse_elements fuel' r' (append acc v)
          | String "]" r' => Some (VList (append acc v), r')
          | _ => None
          end
      | None => None
      end
  end
with parse_members (fuel : nat) (s : string) (acc : dict)
  : option (value * string) :=
  match fuel with
  | O => None
  | S fuel' =>
      match skip_ws s with
      | String q r =>
          if nat_of_ascii q =? 34 then
            match string_body r with
            | Some (k, r1) =>
                match skip_ws r1 with
                | String ":" r2 =>
                    match parse_value fuel' r2 with
                    | Some (v, r3) =>
                        match skip_ws r3 with
                        | String "," r4 =>
                            parse_members fuel' r4 (dict_set acc k v)
                        | String "}" r4 => Some (VDict (dict_set acc k v), r4)
                        | _ => None
                        end
                    | None => None
                    end
                | _ => None
                end
            | None => None
            end
          else None
      | EmptyString => None
      end
  end.

(** Every call of the reader but the one for the elements of an array
    consumes a character, so twice the length of the text is fuel enough. *)
Definition json_loads_ref (s : string) : value + string :=
  match parse_value (2 * String.length s + 2) s with
  | Some (v, rest) =>
      match skip_ws rest with
      | EmptyString => inl v
      | _ => inr "Extra data"
      end
  | None => inr "Expecting value"
  end.

(** The [required] keyword of a schema, on an object. *)
Fixpoint first_missing (names : list value) (d : dict) : option string :=
  match names with
  | [] => None
  | VStr k :: names' =>
      match dict_get d k with
      | Some _ => first_missing names' d
      | None => Some k
      end
  | _ :: names' => first_missing names' d
  end.

Definition validate_required (instance : value) (schema : dict)
  : schema_outcome :=
  match dict_get schema "required", instance with
  | Some (VList names), VDict d =>
      match first_missing names d with
      | Some k => SchemaViolation (repr_str k ++ " is a required property")
      | None => SchemaValid
      end
  | _, _ => SchemaValid
  end.

Definition libraries : Libraries :=
  {| json_loads := json_loads_ref; jsonschema_validate := validate_required |}.

End Reference.

(** ** Notions used to state the properties *)

Module Properties.
Import Helpers Framework.

(** [sub] stands in [s] at position [p]. *)
Definition occurs_at (sub s : string) (p : nat) : Prop :=
  substring p (String.length sub) s = sub.

(** [p] is the first position from [start] on where [sub] stands in [s]. *)
Definition first_occurrence (sub s : string) (start p : nat) : Prop :=
  start <= p /\ occurs_at sub s p
  /\ forall k, start <= k -> k < p -> ~ occurs_at sub s k.

(** A fenced block labelled json: its opening delimiter stands at [opening]
    and the next fence after it, the closing one, at [closing]. *)
Definition labelled_block (response : string) (opening closing : nat) : Prop :=
  occurs_at "```json" response opening
  /\ first_occurrence "```" response (opening + 7) closing.

(** The text the block encloses, trimmed. *)
Definition block_content (response : string) (opening closing : nat) : string :=
  strip (slice response (opening + 7) closing).

(** An attempt of the category [label] is among [attempts]. *)
Definition has_attempt (label : string) (attempts : list string) : Prop :=
  exists a, In a attempts /\ startswith label a = true.

(** Every one of [attempts] is of the category [label]. *)
Definition all_labelled (label : string) (attempts : list string) : Prop :=
  Forall (fun a => startswith label a = true) attempts.

(** The value under [key], when [v] is a mapping that has the key. *)
Definition value_get (v : value) (key : string) : option value :=
  match v with
  | VDict d => dict_get d key
  | _ => None
  end.

(** Every expected key is in [v] with a value equal to the expected one. *)
Definition expected_subset (v : value) (expected : dict) : Prop :=
  forall key expected_value,
    In (key, expected_value) expected ->
    exists actual_value,
      value_get v key = Some actual_value
      /\ py_eq actual_value expected_value = true.

(** The number of trials that passed, and the verdict as a function of the
    pass flags and the number of runs alone. *)
Definition count_passed (l : list iteration_result) : nat :=
  length (filter iter_passed l).

Definition verdict_of (flags : list bool) (total : Z) : bool :=
  (Z.of_nat (length (filter (fun b : bool => b) flags)) =? total)%Z.

(** What the handlers make of an exception [e]: a failed trial. *)
Definition is_failure_of (e : exn) (r : iteration_result) : Prop :=
  iter_passed r = false
  /\ iter_response r = RespText EmptyString
  /\ iter_response_json r = None
  /\ iter_error r = Some (str_of_exn e).

(** The entry that [run_test] records for the trial number [k]. *)
Definition recorded (r : result iteration_result) (k : nat) : iteration_result :=
  match r with
  | Ok result_ => result_
  | Raise e => failed_iteration e k
  end.

(** The world in which the trial number [k] starts. *)
Definition world_before (trial : world -> result iteration_result * world)
    (self : WRPTestRunner) (k : nat) (w : world) : world :=
  snd (run_iterations trial self k 0 ([], 0) w).

(** The world after one round of the loop, the entries that [n] rounds
    record from trial number [i] on, and the world they end in. *)
Definition round_world (trial : world -> result iteration_result * world)
    (self : WRPTestRunner) (w : world) : world :=
  let w1 := snd (trial w) in
  if (0 <? wait_time self)%Z then emit w1 [EvSleep (wait_time self)] else w1.

Fixpoint entries (trial : world -> result iteration_result * world)
    (self : WRPTestRunner) (n i : nat) (w : world) : list iteration_result :=
  match n with
  | O => []
  | S n' =>
      recorded (fst (trial w)) i
      :: entries trial self n' (S i) (round_world trial self w)
  end.

Fixpoint final_world (trial : world -> result iteration_result * world)
    (self : WRPTestRunner) (n : nat) (w : world) : world :=
  match n with
  | O => w
  | S n' => final_world trial self n' (round_world trial self w)
  end.

(** The prompt script in the words of the interface: every prompt on a line
    of its own, in order, then the line [quit]. *)
Fixpoint prompt_lines (turns_ : list WRPTestTurn) : string :=
  match turns_ with
  | [] => EmptyString
  | turn :: turns' => prompt turn ++ nl ++ prompt_lines turns'
  end.

Definition prompt_script (turns_ : list WRPTestTurn) : string :=
  prompt_lines turns_ ++ "quit" ++ nl.

(** A test entry has the keys that the constructor subscripts. *)
Definition well_keyed (td : test_data) : Prop :=
  yaml_name td <> None /\ yaml_description td <> None /\ yaml_mcps td <> None
  /\ Forall (fun t => yaml_prompt t <> None) (get (yaml_turns td) []).

(** *** Well-formed transcripts *)

(** No newline of the text is followed by the first letter of a boundary
    marker ([Query:], [Session with], [Exiting...]). *)
Fixpoint quiet (s : string) : bool :=
  match s with
  | String c ((String c' _) as s') =>
      negb (Ascii.eqb c "010"
            && (Ascii.eqb c' "Q" || Ascii.eqb c' "S" || Ascii.eqb c' "E"))
      && quiet s'
  | _ => true
  end.

(** A reply that the segmenter can hand back as it is: not empty, trimmed,
    no banner, and no line that may open a boundary marker. *)
Definition proper_reply (b : string) : Prop :=
  b <> EmptyString
  /\ strip b = b
  /\ startswith "Exiting" b = false
  /\ startswith "Session with" b = false
  /\ quiet b = true.

(** The transcript of a session: every reply after its [Query:] line. *)
Fixpoint blocks (replies : list string) : string :=
  match replies with
  | [] => EmptyString
  | b :: replies' => "Query:" ++ nl ++ b ++ nl ++ blocks replies'
  end.

(** [t] stands somewhere in [s]. *)
Definition infix (t s : string) : Prop :=
  exists pre post, s = pre ++ t ++ post.

(** *** Turns and events *)

(** Lines 196-202: what the loop over the turns does with one response. *)
Definition check_turn `{Libraries} (response : string) (turn : WRPTestTurn)
  : result value :=
  response_json <- extract_json_from_response response ;;
  _ <- validate_json_response response_json
         (expected_json turn) (json_schema turn) ;;
  Ok response_json.

Definition is_spawn (e : event) : bool :=
  match e with EvSpawn _ => true | _ => false end.

Definition is_kill (e : event) : bool :=
  match e with EvKill => true | _ => false end.

Definition is_wait (e : event) : bool :=
  match e with EvWait => true | _ => false end.

Definition is_sleep (e : event) : bool :=
  match e with EvSleep _ => true | _ => false end.

Definition count_events (p : event -> bool) (l : list event) : nat :=
  length (filter p l).

(** The turn that the loader makes of an entry that has a prompt. *)
Definition turn_of (td : turn_data) : option WRPTestTurn :=
  match yaml_prompt td with
  | Some p => Some (mk_turn p (get (yaml_expected_json td) [])
                              (get (yaml_json_schema td) []))
  | None => None
  end.

End Properties.

(** ** Concrete transcripts, test cases and worlds *)

Module Examples.
Import Helpers Framework Reference.

Definition quoted (s : string) : string := dq ++ s ++ dq.

(** The payload [{"status":"ok"}]. *)
Definition ok_json : string :=
  "{" ++ quoted "status" ++ ":" ++ quoted "ok" ++ "}".

Definition ok_value : value := VDict [("status", VStr "ok")].

(** A reply that wraps the payload in a fenced block labelled json. *)
Definition fenced_reply : string :=
  "```json" ++ nl ++ ok_json ++ nl ++ "```".

Definition transcript_of (reply : string) : string :=
  "Query:" ++ nl ++ reply ++ nl ++ "Query:" ++ nl ++ "Exiting...".

Definition good_transcript : string := transcript_of fenced_reply.
Definition refusal_transcript : string := transcript_of "I cannot comply.".

(** Two labelled blocks: the first holds no JSON, the second holds [[1]]. *)
Definition two_blocks : string :=
  "```json" ++ nl ++ "nope" ++ nl ++ "``` ```json" ++ nl ++ "[1]" ++ nl
  ++ "```".

Definition status_turn : WRPTestTurn :=
  mk_turn "return the status" [("status", VStr "ok")] [].

Definition one_turn_case : WRPTestCase :=
  mk_case "status" "one turn" VNone 1 [status_turn].

Definition two_turn_case : WRPTestCase :=
  mk_case "status twice" "two turns" VNone 30 [status_turn; status_turn].

Definition zero_turn_case : WRPTestCase :=
  mk_case "empty" "no turn" VNone 30 [].

Definition runner (n : Z) : WRPTestRunner :=
  mk_runner n 3 "bin/wrp.py" [one_turn_case].

Definition answering (transcript : string) : spawn_outcome :=
  Spawned (fun _ => Exits 0 transcript EmptyString).

(** The second child refuses; the others answer. *)
Definition pass_fail_pass : world :=
  mk_world "python"
    (fun n => if n =? 1 then answering refusal_transcript
              else answering good_transcript)
    0 [].

(** Every child answers with the good transcript, which holds one reply. *)
Definition always_good : world :=
  mk_world "python" (fun _ => answering good_transcript) 0 [].

(** Every child sleeps past the deadline. *)
Definition hanging : world :=
  mk_world "python" (fun _ => Spawned (fun _ => Hangs)) 0 [].

(** A trial that raises on its second call and passes otherwise. *)
Definition raising_trial (w : world) : result iteration_result * world :=
  (if spawned w =? 1
   then Raise (mk_exn OSError "boom")
   else Ok (mk_iteration true (RespList ["ok"]) (Some [ok_value]) None None),
   next_child w).

(** A document with one test entry that declares no turn. *)
Definition zero_turn_document : yaml_document :=
  mk_document
    (Some [mk_test_data (Some "empty") (Some "no turn") (Some VNone) None
                        (Some [])]).

Definition zero_turn_fs (path : string) : file_state :=
  Parsed zero_turn_document.

End Examples.

(** ** Properties of the harness *)

Import Helpers Framework Properties.

(** *** Strings *)

Lemma append_nil_r (s : string) : s ++ EmptyString = s.
Proof. induction s as [|c s IH]; simpl; [reflexivity | now rewrite IH]. Qed.

Lemma append_assoc (a b c : string) : (a ++ b) ++ c = a ++ b ++ c.
Proof. induction a as [|x a IH]; simpl; [reflexivity | now rewrite IH]. Qed.

Lemma index_lower_bound (sub s : string) :
  forall n m, index n sub s = Some m -> n <= m.
Proof.
  induction s as [|c s IH]; intros n m; simpl.
  - destruct n; [lia | discriminate].
  - destruct n as [|n].
    + lia.
    + destruct (index n sub s) as [k|] eqn:E; [|discriminate].
      intros [= <-]. apply IH in E. lia.
Qed.

(** [find] returns the first occurrence from [start] on, and only that. *)
Lemma find_first_occurrence (sub s : string) (start p : nat) :
  sub <> EmptyString ->
  first_occurrence sub s start p -> find sub s start = Some p.
Proof.
  intros Hsub (Hle & Hocc & Hmin). unfold find.
  destruct (index start sub s) as [m|] eqn:E.
  - f_equal.
    destruct (Nat.lt_trichotomy m p) as [Hlt | [Heq | Hgt]].
    + exfalso. apply (Hmin m).
      * now apply index_lower_bound in E.
      * exact Hlt.
      * exact (index_correct1 _ _ _ _ E).
    + exact Heq.
    + exfalso. exact (index_correct2 _ _ _ _ E p Hle Hgt Hocc).
  - exfalso. exact (index_correct3 _ _ _ _ E Hsub Hle Hocc).
Qed.

Lemma first_occurrence_of_find (sub s : string) (start p : nat) :
  find sub s start = Some p -> first_occurrence sub s start p.
Proof.
  unfold find. intros E. repeat split.
  - now apply index_lower_bound in E.
  - exact (index_correct1 _ _ _ _ E).
  - intros k Hk Hlt. exact (index_correct2 _ _ _ _ E k Hk Hlt).
Qed.

(** *** The prompt script *)

Lemma add_prompts_lines (turns_ : list WRPTestTurn) :
  forall input, add_prompts turns_ input = input ++ prompt_lines turns_.
Proof.
  induction turns_ as [|t ts IH]; intros input; simpl.
  - now rewrite append_nil_r.
  - rewrite IH. now rewrite !append_assoc.
Qed.

Lemma multi_turn_input_script (turns_ : list WRPTestTurn) :
  multi_turn_input turns_ = prompt_script turns_.
Proof.
  unfold multi_turn_input, prompt_script.
  now rewrite add_prompts_lines.
Qed.

Lemma build_input_script (test_case : WRPTestCase) :
  turns test_case <> [] ->
  build_input test_case = Ok (prompt_script (turns test_case)).
Proof.
  intros Hne. unfold build_input.
  destruct (turns test_case) as [|t [|t' ts]] eqn:E.
  - contradiction.
  - unfold single_turn_input, prompt_script. cbn [prompt_lines].
    now rewrite !append_assoc.
  - change (1 <? length (t :: t' :: ts)) with true. cbv iota.
    now rewrite multi_turn_input_script.
Qed.

(** *** The process driver *)

Lemma execute_spawned (self : WRPTestRunner)
    (provider input_text : string) (timeout_ : Z) (w : world)
    (respond : string -> communicate_outcome) :
  child w (spawned w) = Spawned respond ->
  exists cmd tail,
    log (snd (_execute_wrp_subprocess self provider input_text timeout_ w))
    = app (log w) (EvSpawn cmd :: EvCommunicate input_text timeout_ :: tail).
Proof.
  intros Hchild. unfold _execute_wrp_subprocess, execute_wrp_body.
  cbn [emit child spawned sys_executable log next_child]. rewrite Hchild.
  eexists.
  destruct (respond input_text) as [rc out err|].
  - exists []. destruct (negb (rc =? 0)%Z); cbn; now rewrite <- app_assoc.
  - exists [EvKill; EvWait]. cbn. now rewrite <- !app_assoc.
Qed.

(** C5.  When the child does not finish within the timeout, the driver kills
    it and waits for it, and the message names the configured duration; but
    the [TimeoutError] raised on line 124 is caught by the handler of the
    enclosing [try] (line 126), so the invocation fails with a
    [RuntimeError], not with an error of the timeout class. *)
Theorem timeout_error_is_wrapped (self : WRPTestRunner)
    (provider input_text : string) (timeout_ : Z) (w : world)
    (respond : string -> communicate_outcome) :
  child w (spawned w) = Spawned respond ->
  respond input_text = Hangs ->
  let conf := TEST_YAML_PATH_PREFIX ++ lower provider ++ "_arxiv.yaml" in
  let message :=
    "WRP process timed out after " ++ str_of_Z timeout_ ++ " seconds" in
  fst (execute_wrp_body self conf input_text timeout_ w)
  = Raise (mk_exn TimeoutError message)
  /\ fst (_execute_wrp_subprocess self provider input_text timeout_ w)
     = Raise (mk_exn RuntimeError ("WRP execution failed: " ++ message))
  /\ log (snd (_execute_wrp_subprocess self provider input_text timeout_ w))
     = app (log w)
           [EvSpawn [sys_executable w; wrp_script self; "--conf=" ++ conf];
            EvCommunicate input_text timeout_; EvKill; EvWait].
Proof.
  intros Hchild Hhang conf message.
  unfold _execute_wrp_subprocess, execute_wrp_body.
  cbn [emit child spawned sys_executable log next_child].
  rewrite Hchild, Hhang. cbn.
  repeat split. now rewrite <- !app_assoc.
Qed.

Lemma timeout_error_is_wrapped_witness :
  fst (_execute_wrp_subprocess (Examples.runner 1) "gemini"
         "return the status" 1 Examples.hanging)
  = Raise (mk_exn RuntimeError
             "WRP execution failed: WRP process timed out after 1 seconds").
Proof.
  exact (proj1 (proj2 (timeout_error_is_wrapped (Examples.runner 1) "gemini"
                         "return the status" 1 Examples.hanging
                         (fun _ => Hangs) eq_refl eq_refl))).
Defined.

(** C7.  When the transcript yields a number of responses that differs from
    the number of turns, the trial raises a [RuntimeError] that reports both
    numbers, and the trial is recorded as failed with that message, with no
    response and no extracted value: the responses are neither padded nor
    cut to fit the turns. *)
Theorem response_count_mismatch_fails `{Libraries} (self : WRPTestRunner)
    (test_case : WRPTestCase) (provider : string) (w w' : world)
    (input full_output : string) :
  build_input test_case = Ok input ->
  _execute_wrp_subprocess self provider input (timeout test_case) w
  = (Ok full_output, w') ->
  length (extract_response_content full_output) <> length (turns test_case) ->
  let e :=
    mk_exn RuntimeError
      ("Expected " ++ str_of_nat (length (turns test_case))
       ++ " responses, got "
       ++ str_of_nat (length (extract_response_content full_output))) in
  iteration_body self test_case provider w = (Raise e, w')
  /\ _run_single_test_iteration self test_case provider w
     = (mk_iteration false (RespText EmptyString) None (Some (str_of_exn e))
                     None, w').
Proof.
  intros Hin Hrun Hne e.
  assert (Hbody : iteration_body self test_case provider w = (Raise e, w')).
  { unfold iteration_body. rewrite Hin, Hrun. unfold check_output.
    apply Nat.eqb_neq in Hne. now rewrite Hne. }
  split; [exact Hbody|].
  unfold _run_single_test_iteration. now rewrite Hbody.
Qed.

Lemma response_count_mismatch_fails_witness :
  fst (@_run_single_test_iteration Reference.libraries (Examples.runner 1)
         Examples.two_turn_case "gemini" Examples.always_good)
  = mk_iteration false (RespText EmptyString) None
                 (Some "Expected 2 responses, got 1") None.
Proof.
  refine (f_equal fst
            (proj2 (@response_count_mismatch_fails Reference.libraries
                      (Examples.runner 1) Examples.two_turn_case "gemini"
                      Examples.always_good _ _ _ eq_refl eq_refl _))).
  vm_compute. discriminate.
Defined.

(** C10.  For a test case with at least one turn the input script is every
    prompt followed by a newline, in the declared order, and then the line
    [quit]; the single-turn branch builds the string that the multi-turn
    branch would build for one turn; and this script is what the trial
    hands to [communicate] once the child is created. *)
Theorem input_script_is_prompts_then_quit `{Libraries} (self : WRPTestRunner)
    (test_case : WRPTestCase) (provider : string) (w : world) :
  turns test_case <> [] ->
  build_input test_case = Ok (prompt_script (turns test_case))
  /\ (forall turn, single_turn_input [turn] = Ok (multi_turn_input [turn]))
  /\ (forall respond,
        child w (spawned w) = Spawned respond ->
        exists cmd tail,
          log (snd (_run_single_test_iteration self test_case provider w))
          = app (log w)
                (EvSpawn cmd
                 :: EvCommunicate (prompt_script (turns test_case))
                                  (timeout test_case) :: tail)).
Proof.
  intros Hne. split; [now apply build_input_script|]. split.
  - intros turn. rewrite multi_turn_input_script.
    unfold single_turn_input, prompt_script. cbn [prompt_lines].
    now rewrite !append_assoc.
  - intros respond Hchild.
    destruct (execute_spawned self provider (prompt_script (turns test_case))
                (timeout test_case) w respond Hchild) as (cmd & tail & Hlog).
    exists cmd, tail. rewrite <- Hlog.
    unfold _run_single_test_iteration, iteration_body.
    rewrite (build_input_script test_case Hne).
    destruct (_execute_wrp_subprocess self provider
                (prompt_script (turns test_case)) (timeout test_case) w)
      as [r w1].
    destruct r as [full_output|e]; [|reflexivity].
    now destruct (check_output test_case full_output).
Qed.

Lemma input_script_is_prompts_then_quit_witness :
  build_input Examples.two_turn_case
  = Ok ("return the status" ++ nl ++ "return the status" ++ nl
        ++ "quit" ++ nl).
Proof.
  refine (proj1 (@input_script_is_prompts_then_quit Reference.libraries
                   (Examples.runner 1) Examples.two_turn_case "gemini"
                   Examples.always_good _)).
  discriminate.
Defined.

(** *** The robustness loop *)

Section Loop.
Variable trial : world -> result iteration_result * world.
Variable self : WRPTestRunner.

Lemma count_passed_app (l1 l2 : list iteration_result) :
  count_passed (l1 ++ l2) = count_passed l1 + count_passed l2.
Proof. unfold count_passed. now rewrite filter_app, length_app. Qed.

Lemma run_iteration_entry (i : nat) (its : list iteration_result) (s : nat)
    (w : world) :
  run_iteration trial self i (its, s) w
  = ((app its [recorded (fst (trial w)) i],
      s + count_passed [recorded (fst (trial w)) i]),
     round_world trial self w).
Proof.
  unfold run_iteration, round_world, append, count_passed.
  destruct (trial w) as [r w1]. cbn [fst snd].
  destruct r as [result_|e]; cbn [recorded filter failed_iteration iter_passed].
  - destruct (iter_passed result_); cbn [length]; do 2 f_equal; lia.
  - cbn [length]. do 2 f_equal. lia.
Qed.

(** The loop with its accumulators computes [entries]. *)
Lemma run_iterations_entries (n : nat) :
  forall i its s w,
    run_iterations trial self n i (its, s) w
    = ((app its (entries trial self n i w),
        s + count_passed (entries trial self n i w)),
       final_world trial self n w).
Proof.
  induction n as [|n IH]; intros i its s w; cbn [run_iterations entries final_world].
  - rewrite app_nil_r. unfold count_passed. cbn. now rewrite Nat.add_0_r.
  - rewrite run_iteration_entry, IH.
    rewrite <- app_assoc. cbn [app].
    change (recorded (fst (trial w)) i
            :: entries trial self n (S i) (round_world trial self w))
      with (app [recorded (fst (trial w)) i]
                (entries trial self n (S i) (round_world trial self w))).
    rewrite (count_passed_app [recorded (fst (trial w)) i]).
    now rewrite Nat.add_assoc.
Qed.

Lemma world_before_final (k : nat) (w : world) :
  world_before trial self k w = final_world trial self k w.
Proof. unfold world_before. now rewrite run_iterations_entries. Qed.

Lemma entries_length (n : nat) :
  forall i w, length (entries trial self n i w) = n.
Proof. induction n as [|n IH]; intros i w; cbn; [reflexivity | now rewrite IH]. Qed.

Lemma entries_nth (n : nat) :
  forall i w k,
    k < n ->
    nth_error (entries trial self n i w) k
    = Some (recorded (fst (trial (final_world trial self k w))) (i + k)).
Proof.
  induction n as [|n IH]; intros i w k Hk; [lia|].
  destruct k as [|k]; cbn [entries nth_error final_world].
  - now rewrite Nat.add_0_r.
  - rewrite IH by lia. now rewrite Nat.add_succ_r.
Qed.

Lemma entries_forall (P : iteration_result -> Prop) :
  (forall w i, P (recorded (fst (trial w)) i)) ->
  forall n i w, Forall P (entries trial self n i w).
Proof.
  intros HP. induction n as [|n IH]; intros i w; cbn [entries]; constructor; auto.
Qed.

End Loop.

Lemma filter_flags (its : list iteration_result) :
  length (filter (fun b : bool => b) (map iter_passed its)) = count_passed its.
Proof.
  unfold count_passed. induction its as [|r its IH]; cbn; [reflexivity|].
  destruct (iter_passed r); cbn; now rewrite IH.
Qed.

Lemma count_passed_all (its : list iteration_result) :
  count_passed its = length its <-> forallb iter_passed its = true.
Proof.
  split.
  - apply filter_length_forallb.
  - unfold count_passed. induction its as [|r its IH]; cbn; [reflexivity|].
    intros Hall. apply andb_true_iff in Hall as [Hr Hall].
    rewrite Hr. cbn. now rewrite IH.
Qed.

Lemma last_item_ok {A : Type} (l : list A) (x : A) :
  last_item l = Ok x -> l <> [].
Proof. destruct l; [discriminate | discriminate]. Qed.

(** [aggregate] returns when there is at least one entry. *)
Lemma aggregate_ok (self : WRPTestRunner) (its : list iteration_result)
    (s : nat) (res : case_result) :
  aggregate self its s = Ok res ->
  its <> []
  /\ passed res = (Z.of_nat s =? iteration_count self)%Z
  /\ iterations res = its
  /\ successful_runs res = s
  /\ total_runs res = iteration_count self
  /\ (forall r, List.find iter_passed its = Some r ->
        response res = iter_response r
        /\ response_json res = iter_response_json r)
  /\ (List.find iter_passed its = None ->
        exists l, last_item its = Ok l
                  /\ response res = iter_response l
                  /\ response_json res = None).
Proof.
  unfold aggregate. intros Hagg.
  destruct (List.find iter_passed its) as [r|] eqn:Hfind; cbn in Hagg.
  - injection Hagg as <-. cbn.
    split; [intros ->; discriminate|].
    do 4 (split; [reflexivity|]).
    split; [|discriminate].
    intros r' [= <-]. now split.
  - destruct (last_item its) as [l|e] eqn:Hlast; cbn in Hagg; [|discriminate].
    injection Hagg as <-. cbn.
    split; [now apply last_item_ok in Hlast|].
    do 4 (split; [reflexivity|]).
    split; [discriminate|].
    intros _. now exists l.
Qed.

Lemma last_item_in {A : Type} (l : list A) (x : A) :
  last_item l = Ok x -> In x l.
Proof.
  induction l as [|a l IH]; [discriminate|].
  destruct l as [|b l].
  - intros [= <-]. now left.
  - intros Hlast. right. now apply IH.
Qed.

Lemma last_item_total {A : Type} (l : list A) :
  l <> [] -> exists x, last_item l = Ok x.
Proof.
  induction l as [|a l IH]; [contradiction|]. intros _.
  destruct l as [|b l].
  - now exists a.
  - apply IH. discriminate.
Qed.

Lemma aggregate_total (self : WRPTestRunner) (its : list iteration_result)
    (s : nat) :
  its <> [] ->
  exists res, aggregate self its s = Ok res /\ iterations res = its.
Proof.
  intros Hne. unfold aggregate.
  destruct (List.find iter_passed its) as [r|]; cbn.
  - eexists. split; reflexivity.
  - destruct (last_item_total its Hne) as [l ->]. cbn.
    eexists. split; reflexivity.
Qed.

Lemma run_test_with_entries
    (trial : world -> result iteration_result * world)
    (self : WRPTestRunner) (w : world) :
  let n := Z.to_nat (iteration_count self) in
  run_test_with trial self w
  = (aggregate self (entries trial self n 0 w)
       (count_passed (entries trial self n 0 w)),
     final_world trial self n w).
Proof. unfold run_test_with. now rewrite run_iterations_entries. Qed.

(** A trial that did not pass carries no extracted value. *)
Lemma check_output_passed `{Libraries} (test_case : WRPTestCase)
    (full_output : string) (r : iteration_result) :
  check_output test_case full_output = Ok r -> iter_passed r = true.
Proof.
  unfold check_output.
  destruct (negb _); [discriminate|].
  destruct (validate_turns _ _ _); cbn; [|discriminate].
  now intros [= <-].
Qed.

Lemma failed_trial_has_no_json `{Libraries} (self : WRPTestRunner)
    (test_case : WRPTestCase) (provider : string) (w : world) :
  let r := fst (_run_single_test_iteration self test_case provider w) in
  iter_passed r = false -> iter_response_json r = None.
Proof.
  unfold _run_single_test_iteration, iteration_body.
  destruct (build_input test_case) as [input|e]; [|reflexivity].
  destruct (_execute_wrp_subprocess _ _ _ _ _) as [[full_output|e] w1];
    [|reflexivity].
  destruct (check_output test_case full_output) as [r|e] eqn:Hcheck;
    [|reflexivity].
  cbn. intros Hfailed. apply check_output_passed in Hcheck. congruence.
Qed.

(** C1.  A case run that returns passes exactly when the number of
    successful runs equals the number of runs, which is when every recorded
    iteration passed; the count is the number of iterations that passed.
    With three runs whose outcomes are pass, fail, pass the verdict is fail
    and two runs are counted as successful. *)
Theorem case_passes_iff_all_iterations_pass `{Libraries}
    (self : WRPTestRunner) (test_case : WRPTestCase) (provider : string)
    (w w' : world) (res : case_result) :
  run_test self test_case provider w = (Ok res, w') ->
  (passed res = true <-> Z.of_nat (successful_runs res) = total_runs res)
  /\ (passed res = true <-> forallb iter_passed (iterations res) = true)
  /\ successful_runs res = count_passed (iterations res)
  /\ Z.of_nat (length (iterations res)) = total_runs res
  /\ (total_runs res = 3%Z ->
      map iter_passed (iterations res) = [true; false; true] ->
      passed res = false /\ successful_runs res = 2).
Proof.
  unfold run_test. rewrite run_test_with_entries. cbv zeta.
  set (trial := fun w0 : world => _).
  set (n := Z.to_nat (iteration_count self)).
  intros [= Hagg _].
  pose proof (entries_length trial self n 0 w) as Hlen.
  apply aggregate_ok in Hagg
    as (Hne & Hpassed & Hits & Hsucc & Htotal & _ & _).
  rewrite Hits, Hsucc, Htotal, Hpassed.
  set (its := entries trial self n 0 w) in *.
  assert (Hn : Z.of_nat n = iteration_count self).
  { assert (0 < n) by (destruct its; [contradiction | cbn in Hlen; lia]).
    unfold n in *. lia. }
  split; [apply Z.eqb_eq|].
  split.
  { rewrite Z.eqb_eq, <- count_passed_all. lia. }
  split; [reflexivity|].
  split; [lia|].
  intros H3 Hflags.
  assert (Hcount : count_passed its = 2).
  { rewrite <- filter_flags, Hflags. reflexivity. }
  rewrite Hcount, H3. split; reflexivity.
Qed.

Lemma case_passes_iff_all_iterations_pass_witness :
  exists res,
    fst (@run_test Reference.libraries (Examples.runner 3)
           Examples.one_turn_case "gemini" Examples.pass_fail_pass) = Ok res
    /\ map iter_passed (iterations res) = [true; false; true]
    /\ passed res = false /\ successful_runs res = 2.
Proof.
  destruct (@run_test Reference.libraries (Examples.runner 3)
              Examples.one_turn_case "gemini" Examples.pass_fail_pass)
    as [[res|e] w'] eqn:Hrun; [|vm_compute in Hrun; discriminate].
  exists res.
  assert (Hflags : map iter_passed (iterations res) = [true; false; true]).
  { vm_compute in Hrun. injection Hrun as <- _. reflexivity. }
  assert (Htotal : total_runs res = 3%Z).
  { vm_compute in Hrun. injection Hrun as <- _. reflexivity. }
  split; [reflexivity|]. split; [exact Hflags|].
  exact (proj2 (proj2 (proj2 (proj2
           (@case_passes_iff_all_iterations_pass Reference.libraries _ _ _ _ _ _
              Hrun)))) Htotal Hflags).
Defined.

(** C6.  In a case result the representative response and extracted values
    are those of the first iteration that passed or, when none passed,
    those of the last iteration; the verdict is a function of the pass
    flags and of the number of runs alone. *)
Theorem representative_response `{Libraries}
    (self : WRPTestRunner) (test_case : WRPTestCase) (provider : string)
    (w w' : world) (res : case_result) :
  run_test self test_case provider w = (Ok res, w') ->
  (forall r, List.find iter_passed (iterations res) = Some r ->
     response res = iter_response r
     /\ response_json res = iter_response_json r)
  /\ (List.find iter_passed (iterations res) = None ->
      exists l, last_item (iterations res) = Ok l
                /\ response res = iter_response l
                /\ response_json res = iter_response_json l)
  /\ passed res
     = verdict_of (map iter_passed (iterations res)) (total_runs res).
Proof.
  unfold run_test. rewrite run_test_with_entries. cbv zeta.
  set (trial := fun w0 : world => _).
  set (n := Z.to_nat (iteration_count self)).
  intros [= Hagg _].
  assert (Hinv : Forall (fun r => iter_passed r = false ->
                                  iter_response_json r = None)
                        (entries trial self n 0 w)).
  { apply entries_forall. intros w0 i. unfold trial.
    pose proof (failed_trial_has_no_json self test_case provider w0) as Hf.
    destruct (_run_single_test_iteration self test_case provider w0).
    exact Hf. }
  apply aggregate_ok in Hagg
    as (_ & Hpassed & Hits & Hsucc & Htotal & Hfirst & Hnone).
  rewrite Hits, Htotal, Hpassed.
  split; [exact Hfirst|]. split.
  - intros Hfind. destruct (Hnone Hfind) as (l & Hlast & Hresp & Hjson).
    exists l. split; [exact Hlast|]. split; [exact Hresp|].
    rewrite Hjson. symmetry.
    rewrite Forall_forall in Hinv. apply Hinv.
    + now apply last_item_in.
    + apply (find_none _ _ Hfind). now apply last_item_in.
  - unfold verdict_of. now rewrite filter_flags.
Qed.

Lemma representative_response_witness :
  exists res,
    fst (@run_test Reference.libraries (Examples.runner 3)
           Examples.one_turn_case "gemini" Examples.pass_fail_pass) = Ok res
    /\ response res = RespList [Examples.fenced_reply]
    /\ response_json res = Some [Examples.ok_value]
    /\ passed res = false.
Proof.
  destruct (@run_test Reference.libraries (Examples.runner 3)
              Examples.one_turn_case "gemini" Examples.pass_fail_pass)
    as [[res|e] w'] eqn:Hrun; [|vm_compute in Hrun; discriminate].
  exists res. split; [reflexivity|].
  pose proof (@representative_response Reference.libraries _ _ _ _ _ _ Hrun)
    as (Hfirst & _ & Hverdict).
  vm_compute in Hrun. injection Hrun as <- _.
  destruct (Hfirst _ eq_refl) as [Hresp Hjson].
  split; [exact Hresp|]. split; [exact Hjson|]. exact Hverdict.
Defined.

(** C8.  The loop records one entry for every trial, in index order: the
    entry number [k] is the result of the trial number [k], or, when that
    trial raised, a failed result that carries the message of the exception;
    the later trials run all the same, so the list has as many entries as
    there are runs, and with at least one run the case run returns this
    list.  Inside a trial, an exception of the body becomes a failed result
    in the same way. *)
Theorem every_trial_is_recorded `{Libraries}
    (trial : world -> result iteration_result * world)
    (self : WRPTestRunner) (w : world) :
  let n := Z.to_nat (iteration_count self) in
  let its := fst (fst (run_iterations trial self n 0 ([], 0) w)) in
  length its = n
  /\ (forall k, k < n ->
        nth_error its k
        = Some (recorded (fst (trial (world_before trial self k w))) k))
  /\ (forall e k, is_failure_of e (failed_iteration e k))
  /\ (forall test_case provider w0 e,
        fst (iteration_body self test_case provider w0) = Raise e ->
        is_failure_of e
          (fst (_run_single_test_iteration self test_case provider w0)))
  /\ (0 < n ->
      exists res, fst (run_test_with trial self w) = Ok res
                  /\ iterations res = its).
Proof.
  intros n its. unfold its. rewrite run_iterations_entries. cbn [fst app].
  split; [apply entries_length|]. split.
  { intros k Hk. rewrite world_before_final. now rewrite entries_nth. }
  split; [now intros e k|]. split.
  { intros test_case provider w0 e Hbody.
    unfold _run_single_test_iteration.
    destruct (iteration_body self test_case provider w0) as [r w1].
    cbn in Hbody. subst r. now cbn. }
  intros Hn. rewrite run_test_with_entries. cbn [fst].
  apply aggregate_total. fold n.
  pose proof (entries_length trial self n 0 w) as Hlen.
  intros Hnil. rewrite Hnil in Hlen. cbn in Hlen. lia.
Qed.

Lemma every_trial_is_recorded_witness :
  nth_error
    (fst (fst (run_iterations Examples.raising_trial (Examples.runner 3) 3 0
                 ([], 0) Examples.pass_fail_pass))) 1
  = Some (failed_iteration (mk_exn OSError "boom") 1).
Proof.
  refine (proj1 (proj2 (@every_trial_is_recorded Reference.libraries
                          Examples.raising_trial (Examples.runner 3)
                          Examples.pass_fail_pass)) 1 _).
  vm_compute. lia.
Defined.

(** *** The JSON extractor *)

(** C2, as stated, fails: the second labelled block of [Examples.two_blocks]
    holds the JSON text [[1]], and extraction does not return its value. *)
Lemma later_labelled_block_is_not_extracted :
  labelled_block Examples.two_blocks 17 29
  /\ @json_loads Reference.libraries (block_content Examples.two_blocks 17 29)
     = inl (VList [VInt 1])
  /\ @extract_json_from_response Reference.libraries Examples.two_blocks
     <> Ok (VList [VInt 1]).
Proof.
  split; [|split].
  - split; [reflexivity|]. now apply first_occurrence_of_find.
  - reflexivity.
  - vm_compute. discriminate.
Qed.

(** C2, amended.  When the first fenced block labelled json of a response
    (the first opening delimiter and the next fence after it) encloses text
    that parses as JSON once trimmed, extraction returns the parsed value,
    whatever else the response holds. *)
Theorem first_labelled_block_is_extracted `{Libraries}
    (response : string) (opening closing : nat) (v : value) :
  first_occurrence "```json" response 0 opening ->
  labelled_block response opening closing ->
  json_loads (block_content response opening closing) = inl v ->
  extract_json_from_response response = Ok v.
Proof.
  intros Hfirst [_ Hclose] Hjson.
  apply find_first_occurrence in Hfirst; [|discriminate].
  apply find_first_occurrence in Hclose; [|discriminate].
  unfold extract_json_from_response, run_strategies, markdown_json_block.
  rewrite Hfirst, Hclose. unfold block_content in Hjson. rewrite Hjson.
  reflexivity.
Qed.

Lemma first_labelled_block_is_extracted_witness :
  @extract_json_from_response Reference.libraries
    ("Here it is: " ++ Examples.fenced_reply ++ " {not json}")
  = Ok Examples.ok_value.
Proof.
  apply (@first_labelled_block_is_extracted Reference.libraries _ 12 36).
  - now apply first_occurrence_of_find.
  - split; [reflexivity|]. now apply first_occurrence_of_find.
  - reflexivity.
Defined.

(** *** The loader *)

Lemma build_turns_ok (turns_data : list turn_data) :
  Forall (fun t => yaml_prompt t <> None) turns_data ->
  forall turns_,
    exists built,
      build_turns turns_data turns_ = Ok (app turns_ built)
      /\ length built = length turns_data.
Proof.
  induction 1 as [|td tds Hp _ IH]; intros turns_; cbn [build_turns].
  - exists []. now rewrite app_nil_r.
  - destruct (yaml_prompt td) as [p|]; [|contradiction]. cbn.
    destruct (IH (append turns_
                    (mk_turn p (get (yaml_expected_json td) [])
                             (get (yaml_json_schema td) []))))
      as (built & -> & Hlen).
    eexists (_ :: built). unfold append. rewrite <- app_assoc.
    split; [reflexivity|]. cbn. now rewrite Hlen.
Qed.

Lemma WRPTestCase_init_ok (td : test_data) :
  well_keyed td ->
  exists c, WRPTestCase_init td = Ok c
            /\ length (turns c) = length (get (yaml_turns td) []).
Proof.
  intros (Hname & Hdesc & Hmcps & Hturns). unfold WRPTestCase_init.
  destruct (yaml_name td); [|contradiction].
  destruct (yaml_description td); [|contradiction].
  destruct (yaml_mcps td); [|contradiction]. cbn.
  destruct (build_turns_ok _ Hturns []) as (built & -> & Hlen). cbn.
  eexists. split; [reflexivity|]. exact Hlen.
Qed.

(** C4, as stated, fails: a document whose only test entry declares no
    turn loads, and the test case is constructed with an empty turn list. *)
Lemma zero_turn_case_is_loaded :
  load_tests Examples.zero_turn_fs "test_wrp.yaml"
  = Ok [Examples.zero_turn_case].
Proof. reflexivity. Qed.

(** C4, amended.  Loading does not reject a test entry for declaring no
    turn: when every entry of the document has the keys [name],
    [description] and [mcps], and every turn a [prompt], loading succeeds
    and constructs one test case per entry, with as many turns as the entry
    declares, so a test case without turns is constructed as such. *)
Theorem zero_turn_cases_are_constructed (fs : string -> file_state)
    (test_cases_path : string) (data : yaml_document) :
  fs test_cases_path = Parsed data ->
  Forall well_keyed (get (yaml_tests data) []) ->
  exists cases,
    load_tests fs test_cases_path = Ok cases
    /\ Forall2 (fun td c => length (turns c) = length (get (yaml_turns td) []))
               (get (yaml_tests data) []) cases.
Proof.
  intros Hfs Hkeys. unfold load_tests. rewrite Hfs.
  induction Hkeys as [|td tds Htd _ (cases & IHc & IHf)]; cbn [construct_cases].
  - now exists [].
  - destruct (WRPTestCase_init_ok td Htd) as (c & -> & Hlen). cbn.
    rewrite IHc. cbn. exists (c :: cases). split; [reflexivity|].
    now constructor.
Qed.

Lemma zero_turn_cases_are_constructed_witness :
  exists cases,
    load_tests Examples.zero_turn_fs "test_wrp.yaml" = Ok cases
    /\ Forall2 (fun td c => length (turns c) = length (get (yaml_turns td) []))
               (get (yaml_tests Examples.zero_turn_document) []) cases.
Proof.
  apply (zero_turn_cases_are_constructed Examples.zero_turn_fs "test_wrp.yaml"
           Examples.zero_turn_document eq_refl).
  repeat constructor; discriminate.
Defined.

(** *** The attempts that a failed extraction lists *)

Lemma has_attempt_app (label : string) (l1 l2 : list string) :
  has_attempt label (l1 ++ l2)
  <-> has_attempt label l1 \/ has_attempt label l2.
Proof.
  unfold has_attempt. split.
  - intros (a & Hin & Ha). apply in_app_or in Hin as [Hin|Hin];
      [left | right]; now exists a.
  - intros [(a & Hin & Ha)|(a & Hin & Ha)]; exists a;
      (split; [apply in_or_app; auto | exact Ha]).
Qed.

Lemma has_attempt_labelled (label : string) (attempts : list string) :
  all_labelled label attempts -> attempts <> [] -> has_attempt label attempts.
Proof.
  intros Hall Hne. destruct attempts as [|a l]; [contradiction|].
  exists a. split; [now left|]. now inversion Hall.
Qed.

Lemma startswith_head (c : ascii) (label a : string) :
  startswith (String c label) a = true -> exists a', a = String c a'.
Proof.
  destruct a as [|c' a']; cbn; [discriminate|].
  destruct (ascii_dec c c') as [->|]; [|discriminate]. now exists a'.
Qed.

(** Attempts of one category are none of another whose label starts with
    another letter. *)
Lemma no_attempt_of_other_label (c c' : ascii) (label label' : string)
    (attempts : list string) :
  c <> c' ->
  all_labelled (String c label) attempts ->
  ~ has_attempt (String c' label') attempts.
Proof.
  intros Hcc Hall (a & Hin & Ha).
  unfold all_labelled in Hall. rewrite Forall_forall in Hall.
  apply Hall in Hin. apply startswith_head in Hin as [a1 ->].
  apply startswith_head in Ha as [a2 [= ? _]]. congruence.
Qed.

Section Attempts.
Context `{Libraries}.

Lemma markdown_json_block_attempts (response : string)
    (attempts attempts' : list string) :
  markdown_json_block response attempts = Continue attempts' ->
  exists new,
    attempts' = app attempts new
    /\ all_labelled "Markdown JSON blocks:" new
    /\ (new <> [] <-> contains "```json" response = true).
Proof.
  unfold markdown_json_block, contains.
  destruct (find "```json" response 0) as [opening|].
  - destruct (find "```" response (opening + 7)) as [closing|].
    + destruct (json_loads _) as [v|e]; [discriminate|].
      intros [= <-]. eexists [_]. split; [reflexivity|].
      split; [now repeat constructor|]. split; [reflexivity | discriminate].
    + intros [= <-]. eexists [_]. split; [reflexivity|].
      split; [now repeat constructor|]. split; [reflexivity | discriminate].
  - intros [= <-]. exists []. split; [now rewrite app_nil_r|].
    split; [constructor|]. split; [contradiction | discriminate].
Qed.

Lemma generic_code_block_attempts (response : string)
    (attempts attempts' : list string) :
  generic_code_block response attempts = Continue attempts' ->
  exists new,
    attempts' = app attempts new
    /\ all_labelled "Generic code blocks:" new
    /\ (new <> [] <-> contains "```" response = true).
Proof.
  unfold generic_code_block, contains.
  destruct (find "```" response 0) as [opening|].
  - destruct (find "```" response (opening + 3)) as [closing|].
    + destruct (json_loads _) as [v|e]; [discriminate|].
      intros [= <-]. eexists [_]. split; [reflexivity|].
      split; [now repeat constructor|]. split; [reflexivity | discriminate].
    + intros [= <-]. eexists [_]. split; [reflexivity|].
      split; [now repeat constructor|]. split; [reflexivity | discriminate].
  - intros [= <-]. exists []. split; [now rewrite app_nil_r|].
    split; [constructor|]. split; [contradiction | discriminate].
Qed.

Lemma try_pattern_matches_attempts (matches : list string) :
  forall i attempts attempts',
    try_pattern_matches i matches attempts = Continue attempts' ->
    exists new,
      attempts' = app attempts new
      /\ all_labelled "Regex pattern" new
      /\ length new = length matches.
Proof.
  induction matches as [|m ms IH]; intros i attempts attempts';
    cbn [try_pattern_matches].
  - intros [= <-]. exists []. split; [now rewrite app_nil_r|].
    split; [constructor | reflexivity].
  - destruct (json_loads (strip m)) as [v|e]; [discriminate|].
    intros Hrest. apply IH in Hrest as (new & -> & Hall & Hlen).
    eexists (_ :: new). unfold append. rewrite <- app_assoc.
    split; [reflexivity|]. split; [|cbn; now rewrite Hlen].
    constructor; [reflexivity | exact Hall].
Qed.

Lemma regex_pattern_attempts (response : string)
    (attempts attempts' : list string) :
  regex_pattern response attempts = Continue attempts' ->
  exists new,
    attempts' = app attempts new
    /\ all_labelled "Regex pattern" new /\ new <> [].
Proof.
  unfold regex_pattern.
  destruct (findall_json_pattern response) as [|m ms] eqn:Hmatches.
  - intros [= <-]. eexists [_]. split; [reflexivity|].
    split; [now repeat constructor | discriminate].
  - intros Htry.
    apply try_pattern_matches_attempts in Htry as (new & -> & Hall & Hlen).
    exists new. split; [reflexivity|]. split; [exact Hall|].
    intros ->. discriminate.
Qed.

Lemma direct_parsing_attempts (response : string)
    (attempts attempts' : list string) :
  direct_parsing response attempts = Continue attempts' ->
  exists new,
    attempts' = app attempts new
    /\ all_labelled "Direct parsing:" new /\ new <> [].
Proof.
  unfold direct_parsing.
  destruct (json_loads (strip response)) as [v|e]; [discriminate|].
  intros [= <-]. eexists [_]. split; [reflexivity|].
  split; [now repeat constructor | discriminate].
Qed.

End Attempts.

(** C3, as stated, fails: for a response without fences the error lists
    the brace-pattern search and the whole-response parse only; no attempt
    of the two fenced-block categories is in the message. *)
Lemma refusal_lists_no_fenced_attempt :
  let response := "I cannot comply." in
  let attempts :=
    ["Regex pattern search: No JSON-like patterns found";
     "Direct parsing: JSONDecodeError - Expecting value"] in
  @extract_json_from_response Reference.libraries response
  = Raise (mk_exn ValueError (error_msg attempts response))
  /\ contains "Markdown JSON blocks" (error_msg attempts response) = false
  /\ contains "Generic code blocks" (error_msg attempts response) = false.
Proof. repeat split; vm_compute; reflexivity. Qed.

(** C3, amended.  When no strategy recovers JSON, extraction fails with a
    [ValueError] whose message lists the recorded attempts and ends with the
    first 500 characters of the response.  The attempts always include one
    of the brace-pattern category and one of the whole-response parse; they
    include one of the labelled fenced block exactly when the response
    holds the delimiter of such a block, and one of the generic fenced
    block exactly when the response holds a fence. *)
Theorem failed_extraction_lists_attempts `{Libraries}
    (response : string) (e : exn) :
  extract_json_from_response response = Raise e ->
  exn_class_of e = ValueError
  /\ exists attempts,
       str_of_exn e = error_msg attempts response
       /\ has_attempt "Regex pattern" attempts
       /\ has_attempt "Direct parsing:" attempts
       /\ (has_attempt "Markdown JSON blocks:" attempts
           <-> contains "```json" response = true)
       /\ (has_attempt "Generic code blocks:" attempts
           <-> contains "```" response = true)
       /\ exists head,
            str_of_exn e
            = head ++ "Response content (first 500 chars): "
              ++ take 500 response.
Proof.
  unfold extract_json_from_response, run_strategies, then_try.
  destruct (markdown_json_block response []) as [v|a1] eqn:H1; [discriminate|].
  destruct (generic_code_block response a1) as [v|a2] eqn:H2; [discriminate|].
  destruct (regex_pattern response a2) as [v|a3] eqn:H3; [discriminate|].
  destruct (direct_parsing response a3) as [v|a4] eqn:H4; [discriminate|].
  intros [= <-]. cbn [exn_class_of str_of_exn]. split; [reflexivity|].
  apply markdown_json_block_attempts in H1 as (n1 & -> & L1 & P1).
  apply generic_code_block_attempts in H2 as (n2 & -> & L2 & P2).
  apply regex_pattern_attempts in H3 as (n3 & -> & L3 & P3).
  apply direct_parsing_attempts in H4 as (n4 & -> & L4 & P4).
  cbn [app].
  exists (((n1 ++ n2) ++ n3) ++ n4)%list.
  split; [reflexivity|].
  split.
  { apply has_attempt_app. left. apply has_attempt_app. right.
    now apply has_attempt_labelled. }
  split.
  { apply has_attempt_app. right. now apply has_attempt_labelled. }
  split.
  { rewrite <- P1. rewrite !has_attempt_app. split.
    - intros [[[Hm|Hg]|Hr]|Hd].
      + destruct Hm as (a & Hin & _). now intros ->.
      + exact (False_ind _ (no_attempt_of_other_label "G" "M" _ _ _
                             ltac:(discriminate) L2 Hg)).
      + exact (False_ind _ (no_attempt_of_other_label "R" "M" _ _ _
                             ltac:(discriminate) L3 Hr)).
      + exact (False_ind _ (no_attempt_of_other_label "D" "M" _ _ _
                             ltac:(discriminate) L4 Hd)).
    - intros Hne. left. left. left. now apply has_attempt_labelled. }
  split.
  { rewrite <- P2. rewrite !has_attempt_app. split.
    - intros [[[Hm|Hg]|Hr]|Hd].
      + exact (False_ind _ (no_attempt_of_other_label "M" "G" _ _ _
                             ltac:(discriminate) L1 Hm)).
      + destruct Hg as (a & Hin & _). now intros ->.
      + exact (False_ind _ (no_attempt_of_other_label "R" "G" _ _ _
                             ltac:(discriminate) L3 Hr)).
      + exact (False_ind _ (no_attempt_of_other_label "D" "G" _ _ _
                             ltac:(discriminate) L4 Hd)).
    - intros Hne. left. left. right. now apply has_attempt_labelled. }
  unfold error_msg. eexists. rewrite <- !append_assoc. reflexivity.
Qed.

Lemma failed_extraction_lists_attempts_witness :
  exists attempts,
    has_attempt "Markdown JSON blocks:" attempts
    /\ has_attempt "Generic code blocks:" attempts
    /\ @extract_json_from_response Reference.libraries Examples.two_blocks
       = Raise (mk_exn ValueError (error_msg attempts Examples.two_blocks)).
Proof.
  destruct (@extract_json_from_response Reference.libraries Examples.two_blocks)
    as [v|e] eqn:Hextract; [vm_compute in Hextract; discriminate|].
  destruct (@failed_extraction_lists_attempts Reference.libraries _ _ Hextract)
    as (Hclass & attempts & Hmsg & _ & _ & Hmarkdown & Hgeneric & _).
  exists attempts.
  split; [now apply Hmarkdown|]. split; [now apply Hgeneric|].
  destruct e as [c m]. cbn in Hclass, Hmsg. now subst.
Defined.

(** *** The validator *)

Section Validation.
Context `{Libraries}.

(** On a mapping the loop succeeds exactly on an expected subset. *)
Lemma check_expected_dict (d : dict) (items : dict) :
  check_expected (VDict d) items = Ok tt <-> expected_subset (VDict d) items.
Proof.
  induction items as [|[key expected_value] items IH]; cbn [check_expected].
  - split; [|reflexivity]. intros _ key expected_value [].
  - cbn [py_contains py_getitem bind].
    destruct (dict_get d key) as [actual|] eqn:Hget; cbn [negb bind].
    + destruct (py_eq actual expected_value) eqn:Heq; cbn [negb].
      * rewrite IH. split.
        -- intros Hsub k e [[= <- <-]|Hin]; [|now apply Hsub].
           exists actual. now split.
        -- intros Hsub k e Hin. apply Hsub. now right.
      * split; [discriminate|]. intros Hsub.
        destruct (Hsub key expected_value (or_introl eq_refl))
          as (a & Ha & Hae).
        cbn in Ha. congruence.
    + split; [discriminate|]. intros Hsub.
      destruct (Hsub key expected_value (or_introl eq_refl)) as (a & Ha & _).
      cbn in Ha. congruence.
Qed.

(** On anything else the first expected key already fails. *)
Lemma check_expected_not_dict (v : value) (items : dict) :
  (forall d, v <> VDict d) -> items <> [] ->
  check_expected v items <> Ok tt.
Proof.
  intros Hv Hne. destruct items as [|[key expected_value] items];
    [contradiction|].
  cbn [check_expected].
  destruct v as [| b | z | s | l | d]; cbn [py_contains py_getitem bind];
    try discriminate.
  - destruct (contains key s); cbn; discriminate.
  - destruct (existsb _ l); cbn; discriminate.
  - now destruct (Hv d).
Qed.

Lemma check_expected_subset (v : value) (items : dict) :
  items <> [] ->
  check_expected v items = Ok tt <-> expected_subset v items.
Proof.
  intros Hne. destruct v as [| b | z | s | l | d];
    try (split;
         [ intros Hok; exfalso; revert Hok;
           apply check_expected_not_dict; [discriminate | exact Hne]
         | intros Hsub; destruct items as [|[k e] items]; [contradiction|];
           destruct (Hsub k e (or_introl eq_refl)) as (a & Ha & _);
           discriminate ]).
  apply check_expected_dict.
Qed.

(** What the loop raises on a mapping: the report of the first expected key
    that is missing or whose value differs. *)
Lemma check_expected_failure (d : dict) (items : dict) (e : exn) :
  check_expected (VDict d) items = Raise e ->
  exists key expected_value,
    In (key, expected_value) items
    /\ ((dict_get d key = None
         /\ e = mk_exn AssertionError
                  ("Missing expected key '" ++ key ++ "' in response"))
        \/ (exists actual_value,
              dict_get d key = Some actual_value
              /\ py_eq actual_value expected_value = false
              /\ e = mk_exn AssertionError
                       ("Expected " ++ key ++ "='" ++ py_str expected_value
                        ++ "', got '" ++ py_str actual_value ++ "'"))).
Proof.
  induction items as [|[key expected_value] items IH]; cbn [check_expected];
    [discriminate|].
  cbn [py_contains py_getitem bind].
  destruct (dict_get d key) as [actual|] eqn:Hget; cbn [negb bind].
  - destruct (py_eq actual expected_value) eqn:Heq; cbn [negb].
    + intros Hrest. destruct (IH Hrest) as (k & ev & Hin & Hcase).
      exists k, ev. split; [now right | exact Hcase].
    + intros [= <-]. exists key, expected_value. split; [now left|].
      right. exists actual. now repeat split.
  - intros [= <-]. exists key, expected_value. split; [now left|].
    left. now split.
Qed.

End Validation.

(** C9, as stated, fails twice.  A value that has every expected key with
    the expected value is rejected when the schema rejects it; and the
    report of a missing key names the key only, not the expected value. *)
Lemma validation_beyond_expected_values :
  (expected_subset Examples.ok_value [("status", VStr "ok")]
   /\ @validate_json_response Reference.libraries Examples.ok_value
        [("status", VStr "ok")] [("required", VList [VStr "id"])]
      = Raise (mk_exn AssertionError
                 "JSON schema validation failed: 'id' is a required property"))
  /\ (@validate_json_response Reference.libraries (VDict [])
        [("status", VStr "ok")] []
      = Raise (mk_exn AssertionError
                 "Missing expected key 'status' in response")
      /\ contains (py_str (VStr "ok"))
           "Missing expected key 'status' in response" = false).
Proof.
  split; split; try reflexivity.
  intros key expected_value [[= <- <-]|[]].
  exists (VStr "ok"). now split.
Qed.

(** C9, amended.  For a value, a non-empty expected-value mapping and a
    schema that is empty or that the value satisfies, validation succeeds
    exactly when the value is a mapping that has every expected key with a
    value equal to the expected one (Python's [==]).  On a mapping, a
    failure reports the first offending key: a missing key is named, a
    differing value is reported with the key, the expected value and the
    actual value.  With an empty schema and an empty expected-value mapping
    validation passes for every value. *)
Theorem validation_checks_expected_values `{Libraries}
    (v : value) (expected json_schema_ : dict) :
  truthy_dict json_schema_ = false
  \/ jsonschema_validate v json_schema_ = SchemaValid ->
  expected <> [] ->
  (validate_json_response v expected json_schema_ = Ok tt
   <-> expected_subset v expected)
  /\ (forall d e,
        v = VDict d ->
        validate_json_response v expected json_schema_ = Raise e ->
        exists key expected_value,
          In (key, expected_value) expected
          /\ ((value_get v key = None
               /\ e = mk_exn AssertionError
                        ("Missing expected key '" ++ key ++ "' in response"))
              \/ (exists actual_value,
                    value_get v key = Some actual_value
                    /\ py_eq actual_value expected_value = false
                    /\ e = mk_exn AssertionError
                             ("Expected " ++ key ++ "='"
                              ++ py_str expected_value ++ "', got '"
                              ++ py_str actual_value ++ "'"))))
  /\ (forall v0, validate_json_response v0 [] [] = Ok tt).
Proof.
  intros Hschema Hne.
  assert (Hcheck : check_schema v json_schema_ = Ok tt).
  { unfold check_schema. destruct Hschema as [-> | Hvalid]; [reflexivity|].
    rewrite Hvalid. now destruct (truthy_dict json_schema_). }
  assert (Htruthy : truthy_dict expected = true)
    by (destruct expected; [contradiction | reflexivity]).
  unfold validate_json_response. rewrite Hcheck, Htruthy. cbn [bind].
  split; [now apply check_expected_subset|]. split; [|reflexivity].
  intros d e -> Hraise. now apply check_expected_failure.
Qed.

Lemma validation_checks_expected_values_witness :
  @validate_json_response Reference.libraries
    (VDict [("status", VStr "ok"); ("count", VInt 2)])
    [("status", VStr "ok")] [("required", VList [VStr "count"])]
  = Ok tt.
Proof.
  apply (proj1 (@validation_checks_expected_values Reference.libraries
                  (VDict [("status", VStr "ok"); ("count", VInt 2)])
                  [("status", VStr "ok")] [("required", VList [VStr "count"])]
                  (or_intror eq_refl) ltac:(discriminate))).
  intros key expected_value [[= <- <-]|[]].
  exists (VStr "ok"). now split.
Defined.

(** *** The scenarios of the specification, run on the model *)

(** One [Query:] block is one response; the closing banner is dropped. *)
Example segmenter_keeps_the_reply :
  extract_response_content Examples.good_transcript = [Examples.fenced_reply].
Proof. vm_compute. reflexivity. Qed.

(** One test case, one turn, one run, a reply that wraps the expected
    payload in a labelled block: the case passes. *)
Example end_to_end_pass :
  fst (@run_test Reference.libraries (Examples.runner 1)
         Examples.one_turn_case "gemini" Examples.always_good)
  = Ok (mk_case_result true (RespList [Examples.fenced_reply])
          (Some [Examples.ok_value]) None
          [mk_iteration true (RespList [Examples.fenced_reply])
             (Some [Examples.ok_value]) None None]
          1 1).
Proof. vm_compute. reflexivity. Qed.

(** The same set-up with a refusal: extraction fails, and so do the
    iteration and the case. *)
Example end_to_end_refusal :
  exists res message,
    fst (@run_test Reference.libraries (Examples.runner 1)
           Examples.one_turn_case "gemini"
           (mk_world "python"
              (fun _ => Examples.answering Examples.refusal_transcript) 0 []))
    = Ok res
    /\ passed res = false
    /\ map iter_error (iterations res) = [Some message]
    /\ startswith "Turn 1 failed: No valid JSON found in response." message
       = true.
Proof. do 2 eexists. vm_compute. repeat split. Qed.

(** With no run configured the loop records nothing and [iterations[-1]]
    raises. *)
Example no_run_raises :
  fst (@run_test Reference.libraries (Examples.runner 0)
         Examples.one_turn_case "gemini" Examples.always_good)
  = Raise (mk_exn IndexError "list index out of range").
Proof. vm_compute. reflexivity. Qed.

(** A test case without turns fails in every trial, on [turns[0]]. *)
Example zero_turn_case_fails_when_run :
  fst (@_run_single_test_iteration Reference.libraries (Examples.runner 1)
         Examples.zero_turn_case "gemini" Examples.always_good)
  = mk_iteration false (RespText EmptyString) None
                 (Some "list index out of range") None.
Proof. vm_compute. reflexivity. Qed.

(** ** Further properties of the helpers *)

(** *** Trimming *)

Lemma rstrip_cons (c : ascii) (s : string) :
  rstrip (String c s)
  = match rstrip s with
    | EmptyString => if isspace c then EmptyString else String c EmptyString
    | r => String c r
    end.
Proof. reflexivity. Qed.

Lemma rstrip_idempotent (s : string) : rstrip (rstrip s) = rstrip s.
Proof.
  induction s as [|c s IH]; [reflexivity|]. rewrite rstrip_cons.
  destruct (rstrip s) as [|a r] eqn:E.
  - destruct (isspace c) eqn:Hc; [reflexivity|]. cbn. now rewrite Hc.
  - rewrite rstrip_cons, IH. reflexivity.
Qed.

Lemma rstrip_fixed_tail (c : ascii) (s : string) :
  rstrip (String c s) = String c s -> rstrip s = s.
Proof.
  rewrite rstrip_cons. destruct (rstrip s) as [|a r] eqn:E.
  - destruct (isspace c); [discriminate|]. now intros [= <-].
  - now intros [= <-].
Qed.

Lemma rstrip_fixed_space (c : ascii) (s : string) :
  rstrip (String c s) = String c s -> isspace c = true -> s <> EmptyString.
Proof.
  intros Hfix Hc ->. rewrite rstrip_cons in Hfix.
  change (rstrip EmptyString) with EmptyString in Hfix.
  rewrite Hc in Hfix. discriminate.
Qed.

Lemma rstrip_app_space (c : ascii) (s : string) :
  isspace c = true -> rstrip (s ++ String c EmptyString) = rstrip s.
Proof.
  intros Hc. induction s as [|a s IH]; cbn [String.append]; rewrite !rstrip_cons.
  - change (rstrip EmptyString) with EmptyString. now rewrite Hc.
  - now rewrite IH.
Qed.

Lemma lstrip_head (s : string) :
  lstrip s = EmptyString
  \/ exists c s', lstrip s = String c s' /\ isspace c = false.
Proof.
  induction s as [|c s IH]; [now left|]. cbn [lstrip].
  destruct (isspace c) eqn:Hc; [exact IH|]. right. now exists c, s.
Qed.

Lemma rstrip_keeps_head (c : ascii) (s : string) :
  isspace c = false -> exists r, rstrip (String c s) = String c r.
Proof.
  intros Hc. rewrite rstrip_cons. destruct (rstrip s) as [|a r].
  - rewrite Hc. now eexists.
  - now eexists.
Qed.

(** What [strip] returns is empty or starts with a character that is no
    white space. *)
Lemma strip_head (s : string) :
  strip s = EmptyString
  \/ exists c r, strip s = String c r /\ isspace c = false.
Proof.
  unfold strip. destruct (lstrip_head s) as [-> | (c & s' & -> & Hc)].
  - now left.
  - right. destruct (rstrip_keeps_head c s' Hc) as [r ->]. now exists c, r.
Qed.

Lemma lstrip_fixed (c : ascii) (s : string) :
  isspace c = false -> lstrip (String c s) = String c s.
Proof. intros Hc. cbn [lstrip]. now rewrite Hc. Qed.

Lemma strip_idempotent (s : string) : strip (strip s) = strip s.
Proof.
  destruct (strip_head s) as [E | (c & r & E & Hc)].
  - now rewrite E.
  - rewrite E. unfold strip at 1. rewrite (lstrip_fixed c r Hc).
    rewrite <- E. unfold strip. apply rstrip_idempotent.
Qed.

Lemma strip_fixed_head (b : string) :
  strip b = b -> b <> EmptyString ->
  exists c b', b = String c b' /\ isspace c = false.
Proof.
  intros Hfix Hne. destruct (strip_head b) as [E | (c & r & E & Hc)].
  - congruence.
  - exists c, r. split; [congruence | exact Hc].
Qed.

Lemma strip_fixed_rstrip (b : string) : strip b = b -> rstrip b = b.
Proof.
  intros Hfix. rewrite <- Hfix at 1. unfold strip.
  rewrite rstrip_idempotent. exact Hfix.
Qed.

Lemma strip_app_newline (b : string) :
  strip b = b -> b <> EmptyString -> strip (b ++ nl) = b.
Proof.
  intros Hfix Hne.
  destruct (strip_fixed_head b Hfix Hne) as (c & b' & -> & Hc).
  unfold strip. cbn [String.append]. rewrite (lstrip_fixed c _ Hc).
  change (String c (b' ++ nl)) with (String c b' ++ nl).
  unfold nl, chr. rewrite rstrip_app_space by reflexivity.
  now apply strip_fixed_rstrip.
Qed.

(** *** The segmenter *)

Lemma collect_responses_acc (matches : list string) :
  forall responses,
    collect_responses matches responses
    = app responses (collect_responses matches []).
Proof.
  induction matches as [|m ms IH]; intros responses; cbn [collect_responses].
  - now rewrite app_nil_r.
  - destruct (negb _ && _ && _).
    + rewrite IH, (IH (append [] _)). unfold append.
      now rewrite <- app_assoc.
    + apply IH.
Qed.

Lemma collect_responses_forall (P : string -> Prop) (matches : list string) :
  (forall m,
     strip m <> EmptyString ->
     startswith "Exiting" (strip m) = false ->
     startswith "Session with" (strip m) = false -> P (strip m)) ->
  forall responses,
    Forall P responses -> Forall P (collect_responses matches responses).
Proof.
  intros HP. induction matches as [|m ms IH]; intros responses Hacc;
    cbn [collect_responses]; [exact Hacc|].
  destruct (strip m =? EmptyString)%string eqn:He; cbn [negb andb];
    [now apply IH|].
  destruct (startswith "Exiting" (strip m)) eqn:Hx; cbn [negb andb];
    [now apply IH|].
  destruct (startswith "Session with" (strip m)) eqn:Hs; cbn [negb andb];
    [now apply IH|].
  apply IH. unfold append. apply Forall_app. split; [exact Hacc|].
  constructor; [|constructor]. apply HP; try assumption.
  now apply String.eqb_neq.
Qed.

(** X1.  Every response that the segmenter returns is non-empty, trimmed,
    and is no closing banner: it starts neither with [Exiting] nor with
    [Session with]. *)
Theorem segmented_responses_are_clean (full_output : string) :
  Forall (fun r => r <> EmptyString
                   /\ strip r = r
                   /\ startswith "Exiting" r = false
                   /\ startswith "Session with" r = false)
         (extract_response_content full_output).
Proof.
  unfold extract_response_content.
  apply collect_responses_forall; [|constructor].
  intros m Hne Hx Hs. repeat split; try assumption. apply strip_idempotent.
Qed.

Lemma index_none_tail (sub : string) (c : ascii) (s : string) :
  index 0 sub (String c s) = None ->
  prefix sub (String c s) = false /\ index 0 sub s = None.
Proof.
  cbn [index]. destruct (prefix sub (String c s)); [discriminate|].
  destruct (index 0 sub s); [discriminate|]. now split.
Qed.

Lemma findall_query_without_marker (s : string) :
  index 0 "Query:" s = None ->
  forall skip, findall_query_from skip s = [].
Proof.
  induction s as [|c s IH]; intros Hnone skip; [reflexivity|].
  apply index_none_tail in Hnone as [Hprefix Hrest].
  cbn [findall_query_from]. destruct skip as [|k]; [|now apply IH].
  unfold startswith. rewrite Hprefix. now apply IH.
Qed.

(** X2.  A transcript in which [Query:] does not occur has no response. *)
Theorem no_marker_no_response (full_output : string) :
  contains "Query:" full_output = false ->
  extract_response_content full_output = [].
Proof.
  unfold contains, find. intros Hc.
  destruct (index 0 "Query:" full_output) eqn:E; [discriminate|].
  unfold extract_response_content, findall_query.
  now rewrite findall_query_without_marker.
Qed.

Lemma no_marker_no_response_witness :
  extract_response_content ("Traceback (most recent call last):" ++ nl
                            ++ "ImportError") = [].
Proof. apply no_marker_no_response. reflexivity. Defined.

Lemma findall_query_skip (x : string) :
  forall k r,
    findall_query_from (String.length x + k) (x ++ r) = findall_query_from k r.
Proof.
  induction x as [|c x IH]; intros k r; [reflexivity|].
  cbn [String.length String.append Nat.add findall_query_from]. apply IH.
Qed.

Lemma nl_char : nl = String "010" EmptyString.
Proof. reflexivity. Qed.

Lemma end_of_response_not_newline (c : ascii) (s : string) :
  c <> "010"%char -> end_of_response (String c s) = false.
Proof.
  intros Hc. unfold end_of_response, startswith. rewrite nl_char.
  cbn [String.append prefix].
  destruct (ascii_dec "010" c) as [E|_]; [now destruct Hc|]. reflexivity.
Qed.

Lemma end_of_response_quiet (c' : ascii) (s : string) :
  (Ascii.eqb c' "Q" || Ascii.eqb c' "S" || Ascii.eqb c' "E") = false ->
  end_of_response (String "010" (String c' s)) = false.
Proof.
  intros Hq. apply orb_false_iff in Hq as [Hq He].
  apply orb_false_iff in Hq as [Hq Hs].
  apply Ascii.eqb_neq in Hq, Hs, He.
  unfold end_of_response, startswith. rewrite nl_char.
  cbn [String.append prefix].
  destruct (ascii_dec "010" "010") as [_|N]; [|now destruct N].
  destruct (ascii_dec "Q" c') as [E|_]; [now destruct Hq|].
  destruct (ascii_dec "S" c') as [E|_]; [now destruct Hs|].
  destruct (ascii_dec "E" c') as [E|_]; [now destruct He|].
  reflexivity.
Qed.

Lemma quiet_tail (c : ascii) (s : string) :
  quiet (String c s) = true -> quiet s = true.
Proof.
  destruct s as [|c' s]; [reflexivity|]. cbn [quiet].
  intros Hq. now apply andb_true_iff in Hq as [_ Hq].
Qed.

(** Inside a quiet reply the look-ahead never holds, so the lazy group
    runs through it. *)
Lemma response_body_through (b : string) :
  forall rest,
    quiet b = true -> rstrip b = b ->
    response_body (b ++ nl ++ rest) = b ++ response_body (nl ++ rest).
Proof.
  induction b as [|c b IH]; intros rest Hq Hr; [reflexivity|].
  assert (Hend : end_of_response (String c b ++ nl ++ rest) = false).
  { destruct (ascii_dec c "010") as [->|Hc].
    - destruct b as [|c' b].
      + exfalso. now apply (rstrip_fixed_space "010" EmptyString Hr).
      + cbn [String.append]. apply end_of_response_quiet.
        cbn [quiet] in Hq. apply andb_true_iff in Hq as [Hq _].
        apply negb_true_iff in Hq. exact Hq.
    - cbn [String.append]. now apply end_of_response_not_newline. }
  cbn [String.append] in *. cbn [response_body]. rewrite Hend.
  f_equal. apply IH.
  - now apply quiet_tail in Hq.
  - now apply rstrip_fixed_tail in Hr.
Qed.

Lemma response_body_at_end (rest : string) :
  rest = EmptyString \/ startswith "Query:" rest = true ->
  response_body (nl ++ rest)
  = match rest with EmptyString => nl | _ => EmptyString end.
Proof.
  intros [-> | Hq]; [reflexivity|].
  destruct rest as [|c rest]; [discriminate|].
  assert (Hend : end_of_response (nl ++ String c rest) = true).
  { unfold end_of_response, startswith in *. rewrite nl_char.
    cbn [String.append prefix].
    destruct (ascii_dec "010" "010") as [_|N]; [|now destruct N].
    cbn [prefix] in Hq. now rewrite Hq. }
  rewrite nl_char in *.
  cbn [String.append] in *. cbn [response_body]. now rewrite Hend.
Qed.

Lemma findall_query_newline (rest : string) :
  findall_query_from 0 (nl ++ rest) = findall_query_from 0 rest.
Proof. reflexivity. Qed.

(** One block of a well-formed transcript is one match. *)
Lemma findall_query_block (b rest : string) :
  proper_reply b ->
  rest = EmptyString \/ startswith "Query:" rest = true ->
  findall_query_from 0 ("Query:" ++ nl ++ b ++ nl ++ rest)
  = (b ++ response_body (nl ++ rest)) :: findall_query_from 0 rest.
Proof.
  intros (Hne & Hstrip & _ & _ & Hquiet) Hrest.
  destruct (strip_fixed_head b Hstrip Hne) as (c & b' & Hb & Hc).
  pose proof (strip_fixed_rstrip b Hstrip) as Hr.
  assert (Hws : ws_through_newline (nl ++ b ++ nl ++ rest) = Some 1).
  { rewrite Hb, nl_char.
    cbn [String.append ws_through_newline]. rewrite Hc.
    reflexivity. }
  change ("Query:" ++ nl ++ b ++ nl ++ rest)
    with (String "Q" ("uery:" ++ nl ++ b ++ nl ++ rest)).
  cbn [findall_query_from].
  change (startswith "Query:" (String "Q" ("uery:" ++ nl ++ b ++ nl ++ rest)))
    with true. cbv iota.
  change (drop 6 (String "Q" ("uery:" ++ nl ++ b ++ nl ++ rest)))
    with (nl ++ b ++ nl ++ rest).
  rewrite Hws.
  change (drop (6 + 1) (String "Q" ("uery:" ++ nl ++ b ++ nl ++ rest)))
    with (b ++ nl ++ rest).
  rewrite (response_body_through b rest Hquiet Hr).
  f_equal.
  rewrite (response_body_at_end rest Hrest).
  destruct rest as [|c0 rest0].
  - replace ("uery:" ++ nl ++ b ++ nl ++ EmptyString)
      with (("uery:" ++ nl ++ b ++ nl) ++ EmptyString)
      by (now rewrite !append_assoc).
    replace (5 + 1 + String.length (b ++ nl))
      with (String.length ("uery:" ++ nl ++ b ++ nl) + 0).
    + apply findall_query_skip.
    + rewrite nl_char. cbn [String.length String.append]. lia.
  - rewrite append_nil_r.
    replace ("uery:" ++ nl ++ b ++ nl ++ String c0 rest0)
      with (("uery:" ++ nl ++ b) ++ nl ++ String c0 rest0)
      by (now rewrite !append_assoc).
    replace (5 + 1 + String.length b)
      with (String.length ("uery:" ++ nl ++ b) + 0).
    + rewrite findall_query_skip. apply findall_query_newline.
    + rewrite nl_char. cbn [String.length String.append]. lia.
Qed.

Lemma blocks_rest (replies : list string) (closing : string) :
  closing = EmptyString \/ startswith "Query:" closing = true ->
  blocks replies ++ closing = EmptyString
  \/ startswith "Query:" (blocks replies ++ closing) = true.
Proof.
  intros Hclosing. destruct replies as [|b bs]; [exact Hclosing|].
  right. reflexivity.
Qed.

Lemma findall_query_blocks (replies : list string) (closing : string) :
  Forall proper_reply replies ->
  closing = EmptyString \/ startswith "Query:" closing = true ->
  exists matches,
    findall_query (blocks replies ++ closing)
    = app matches (findall_query closing)
    /\ map strip matches = replies.
Proof.
  intros Hproper Hclosing. unfold findall_query.
  induction Hproper as [|b bs Hb _ IH].
  - now exists [].
  - destruct IH as (matches & IHm & IHs).
    cbn [blocks]. rewrite !append_assoc.
    rewrite (findall_query_block b (blocks bs ++ closing) Hb
               (blocks_rest bs closing Hclosing)).
    rewrite IHm.
    exists ((b ++ response_body (nl ++ blocks bs ++ closing)) :: matches).
    split; [reflexivity|]. cbn [map]. rewrite IHs. f_equal.
    rewrite (response_body_at_end _ (blocks_rest bs closing Hclosing)).
    destruct Hb as (Hne & Hstrip & _).
    destruct (blocks bs ++ closing).
    + now apply strip_app_newline.
    + now rewrite append_nil_r.
Qed.

Lemma collect_responses_app (m1 m2 : list string) :
  forall responses,
    collect_responses (m1 ++ m2) responses
    = collect_responses m2 (collect_responses m1 responses).
Proof.
  induction m1 as [|m ms IH]; intros responses; [reflexivity|].
  cbn [app collect_responses]. destruct (negb _ && _ && _); apply IH.
Qed.

Lemma collect_proper (matches : list string) :
  Forall proper_reply (map strip matches) ->
  collect_responses matches [] = map strip matches.
Proof.
  induction matches as [|m ms IH]; intros Hp; [reflexivity|].
  inversion Hp as [|x xs (Hne & _ & Hx & Hs & _) Hrest]; subst.
  cbn [collect_responses map].
  apply String.eqb_neq in Hne. rewrite Hne, Hx, Hs. cbn [negb andb].
  rewrite collect_responses_acc. cbn [append app]. f_equal. now apply IH.
Qed.

(** X3.  In a transcript in which every reply follows its [Query:] line and
    is a proper reply (not empty, trimmed, no banner, no line that starts
    like a marker), the segmenter returns exactly the replies, in order,
    followed by what it finds in the rest of the transcript; so K such
    blocks give K responses. *)
Theorem well_formed_transcript_is_segmented (replies : list string)
    (closing : string) :
  Forall proper_reply replies ->
  closing = EmptyString \/ startswith "Query:" closing = true ->
  extract_response_content (blocks replies ++ closing)
  = app replies (extract_response_content closing).
Proof.
  intros Hproper Hclosing. unfold extract_response_content.
  destruct (findall_query_blocks replies closing Hproper Hclosing)
    as (matches & -> & Hstrip).
  rewrite collect_responses_app, collect_responses_acc. f_equal.
  rewrite <- Hstrip in Hproper |- *. now apply collect_proper.
Qed.

Lemma well_formed_transcript_is_segmented_witness :
  extract_response_content
    (blocks [Examples.fenced_reply; "plain text"]
     ++ "Query:" ++ nl ++ "Exiting...")
  = [Examples.fenced_reply; "plain text"].
Proof.
  refine (well_formed_transcript_is_segmented
            [Examples.fenced_reply; "plain text"]
            ("Query:" ++ nl ++ "Exiting...") _ (or_intror eq_refl)).
  repeat constructor; discriminate.
Defined.

(** *** The fall-back strategies of the extractor *)

Lemma substring_app_prefix (s : string) :
  forall p a b,
    substring p (String.length (a ++ b)) s = a ++ b ->
    substring p (String.length a) s = a.
Proof.
  induction s as [|c s IH]; intros p a b.
  - destruct p, a; cbn; try reflexivity; discriminate.
  - destruct p as [|p].
    + destruct a as [|x a]; [now destruct b|].
      cbn [String.length String.append substring].
      intros [= -> Hrest]. f_equal. exact (IH 0 a b Hrest).
    + cbn [substring]. apply IH.
Qed.

(** A response without a fence has no labelled fence either. *)
Lemma no_fence_no_label (response : string) :
  contains "```" response = false -> contains "```json" response = false.
Proof.
  unfold contains, find. intros Hno.
  destruct (index 0 "```" response) eqn:Ef; [discriminate|].
  destruct (index 0 "```json" response) as [p|] eqn:El; [|reflexivity].
  exfalso. apply index_correct1 in El.
  apply (index_correct3 0 p "```" response Ef); [discriminate | lia |].
  exact (substring_app_prefix response p "```" "json" El).
Qed.

Section Fallbacks.
Context `{Libraries}.

Lemma try_pattern_matches_first (before : list string) :
  forall i attempts m after v,
    Forall (fun m' => exists e, json_loads (strip m') = inr e) before ->
    json_loads (strip m) = inl v ->
    try_pattern_matches i (before ++ m :: after) attempts = Return v.
Proof.
  induction before as [|b bs IH]; intros i attempts m after v Hfail Hok;
    cbn [app try_pattern_matches].
  - now rewrite Hok.
  - inversion Hfail as [|x xs [e He] Hrest]; subst. rewrite He.
    now apply IH.
Qed.

Lemma try_pattern_matches_none (matches : list string) :
  forall i attempts,
    Forall (fun m' => exists e, json_loads (strip m') = inr e) matches ->
    exists attempts', try_pattern_matches i matches attempts = Continue attempts'.
Proof.
  induction matches as [|m ms IH]; intros i attempts Hfail;
    cbn [try_pattern_matches]; [now eexists|].
  inversion Hfail as [|x xs [e He] Hrest]; subst. rewrite He. now apply IH.
Qed.

(** X4.  Without a fenced block labelled json, extraction returns what the
    first fenced block encloses (from after the first fence to the next
    one), when that text parses as JSON once trimmed. *)
Theorem generic_block_is_extracted (response : string)
    (opening closing : nat) (v : value) :
  contains "```json" response = false ->
  first_occurrence "```" response 0 opening ->
  first_occurrence "```" response (opening + 3) closing ->
  json_loads (strip (slice response (opening + 3) closing)) = inl v ->
  extract_json_from_response response = Ok v.
Proof.
  intros Hno Hopen Hclose Hjson.
  apply find_first_occurrence in Hopen; [|discriminate].
  apply find_first_occurrence in Hclose; [|discriminate].
  unfold contains in Hno.
  unfold extract_json_from_response, run_strategies, markdown_json_block,
    generic_code_block.
  destruct (find "```json" response 0); [discriminate|].
  cbn [then_try]. now rewrite Hopen, Hclose, Hjson.
Qed.

(** X5.  Without any fence, extraction returns the first brace-pattern
    match that parses as JSON: the matches before it are tried and given
    up, the matches after it and the whole response are not consulted. *)
Theorem first_parseable_match_is_extracted (response : string)
    (before after : list string) (m : string) (v : value) :
  contains "```" response = false ->
  findall_json_pattern response = app before (m :: after) ->
  Forall (fun m' => exists e, json_loads (strip m') = inr e) before ->
  json_loads (strip m) = inl v ->
  extract_json_from_response response = Ok v.
Proof.
  intros Hno Hmatches Hfail Hok.
  pose proof (no_fence_no_label response Hno) as Hnol.
  unfold contains in Hno, Hnol.
  unfold extract_json_from_response, run_strategies, markdown_json_block,
    generic_code_block, regex_pattern.
  destruct (find "```json" response 0); [discriminate|].
  destruct (find "```" response 0); [discriminate|].
  cbn [then_try]. rewrite Hmatches.
  rewrite (try_pattern_matches_first before 0 [] m after v Hfail Hok).
  destruct before; reflexivity.
Qed.

(** X6.  Without any fence and with no brace-pattern match that parses,
    extraction returns the whole response parsed as JSON, when it parses
    once trimmed: raw JSON that is no object (a list, a number, a string)
    is accepted. *)
Theorem raw_json_is_extracted (response : string) (v : value) :
  contains "```" response = false ->
  Forall (fun m' => exists e, json_loads (strip m') = inr e)
         (findall_json_pattern response) ->
  json_loads (strip response) = inl v ->
  extract_json_from_response response = Ok v.
Proof.
  intros Hno Hfail Hok.
  pose proof (no_fence_no_label response Hno) as Hnol.
  unfold contains in Hno, Hnol.
  unfold extract_json_from_response, run_strategies, markdown_json_block,
    generic_code_block, regex_pattern, direct_parsing.
  destruct (find "```json" response 0); [discriminate|].
  destruct (find "```" response 0); [discriminate|].
  cbn [then_try].
  destruct (findall_json_pattern response) as [|m ms] eqn:Hm.
  - cbn [then_try]. now rewrite Hok.
  - destruct (try_pattern_matches_none (m :: ms) 0 [] Hfail) as [a ->].
    cbn [then_try]. now rewrite Hok.
Qed.

End Fallbacks.

Lemma generic_block_is_extracted_witness :
  @extract_json_from_response Reference.libraries
    ("Result:" ++ nl ++ "```" ++ nl ++ "[1, 2]" ++ nl ++ "```")
  = Ok (VList [VInt 1; VInt 2]).
Proof.
  apply (@generic_block_is_extracted Reference.libraries _ 8 19).
  - reflexivity.
  - now apply first_occurrence_of_find.
  - now apply first_occurrence_of_find.
  - reflexivity.
Defined.

Lemma first_parseable_match_is_extracted_witness :
  @extract_json_from_response Reference.libraries
    ("I tried {this} and got " ++ Examples.ok_json ++ " in the end")
  = Ok Examples.ok_value.
Proof.
  apply (@first_parseable_match_is_extracted Reference.libraries _
           ["{this}"] [] Examples.ok_json).
  - reflexivity.
  - reflexivity.
  - constructor; [|constructor]. now eexists.
  - reflexivity.
Defined.

Lemma raw_json_is_extracted_witness :
  @extract_json_from_response Reference.libraries " [1, 2] "
  = Ok (VList [VInt 1; VInt 2]).
Proof.
  apply (@raw_json_is_extracted Reference.libraries).
  - reflexivity.
  - constructor.
  - reflexivity.
Defined.

(** *** What extraction returns comes from the response *)

Lemma infix_refl (s : string) : infix s s.
Proof. exists EmptyString, EmptyString. cbn. now rewrite append_nil_r. Qed.

Lemma infix_cons (c : ascii) (t s : string) :
  infix t s -> infix t (String c s).
Proof. intros (pre & post & ->). now exists (String c pre), post. Qed.

Lemma substring_is_prefix (s : string) :
  forall m, exists post, s = substring 0 m s ++ post.
Proof.
  induction s as [|c s IH]; intros m.
  - exists EmptyString. now destruct m.
  - destruct m as [|m]; cbn [substring].
    + now exists (String c s).
    + destruct (IH m) as [post Hs]. exists post.
      cbn [String.append]. now rewrite <- Hs.
Qed.

Lemma substring_infix (s : string) :
  forall n m, infix (substring n m s) s.
Proof.
  induction s as [|c s IH]; intros n m.
  - destruct n, m; apply infix_refl.
  - destruct n as [|n].
    + destruct (substring_is_prefix (String c s) m) as [post Hs].
      now exists EmptyString, post.
    + cbn [substring]. now apply infix_cons.
Qed.

Lemma findall_json_pattern_infix (s : string) :
  forall skip m, In m (findall_json_pattern_from skip s) -> infix m s.
Proof.
  induction s as [|c s IH]; intros skip m; cbn [findall_json_pattern_from];
    [contradiction|].
  destruct skip as [|k].
  - destruct (Ascii.eqb c "{").
    + destruct (object_body false s) as [n|].
      * intros [<- | Hin].
        -- apply substring_infix.
        -- apply infix_cons. exact (IH _ _ Hin).
      * intros Hin. apply infix_cons. exact (IH _ _ Hin).
    + intros Hin. apply infix_cons. exact (IH _ _ Hin).
  - intros Hin. apply infix_cons. exact (IH _ _ Hin).
Qed.

Section Soundness.
Context `{Libraries}.

Lemma try_pattern_matches_return (matches : list string) :
  forall i attempts v,
    try_pattern_matches i matches attempts = Return v ->
    exists m, In m matches /\ json_loads (strip m) = inl v.
Proof.
  induction matches as [|m ms IH]; intros i attempts v;
    cbn [try_pattern_matches]; [discriminate|].
  destruct (json_loads (strip m)) as [v'|e] eqn:Hm.
  - intros [= <-]. exists m. split; [now left | exact Hm].
  - intros Hrest. destruct (IH _ _ _ Hrest) as (m' & Hin & Hm').
    exists m'. split; [now right | exact Hm'].
Qed.

(** X7.  A value that extraction returns is what [json.loads] makes of a
    piece of the response, trimmed: extraction never makes up a value. *)
Theorem extracted_value_is_parsed_from_response (response : string)
    (v : value) :
  extract_json_from_response response = Ok v ->
  exists text, infix text response /\ json_loads (strip text) = inl v.
Proof.
  unfold extract_json_from_response, run_strategies, then_try.
  destruct (markdown_json_block response []) as [v1|a1] eqn:H1.
  { intros [= <-]. unfold markdown_json_block in H1.
    destruct (find "```json" response 0) as [o|]; [|discriminate].
    destruct (find "```" response (o + 7)) as [c|]; [|discriminate].
    destruct (json_loads _) as [v'|e] eqn:Hj; [|discriminate].
    injection H1 as <-. eexists. split; [|exact Hj]. apply substring_infix. }
  destruct (generic_code_block response a1) as [v2|a2] eqn:H2.
  { intros [= <-]. unfold generic_code_block in H2.
    destruct (find "```" response 0) as [o|]; [|discriminate].
    destruct (find "```" response (o + 3)) as [c|]; [|discriminate].
    destruct (json_loads _) as [v'|e] eqn:Hj; [|discriminate].
    injection H2 as <-. eexists. split; [|exact Hj]. apply substring_infix. }
  destruct (regex_pattern response a2) as [v3|a3] eqn:H3.
  { intros [= <-]. unfold regex_pattern in H3.
    destruct (findall_json_pattern response) as [|m ms] eqn:Hm;
      [discriminate|].
    apply try_pattern_matches_return in H3 as (m' & Hin & Hj).
    exists m'. split; [|exact Hj].
    apply (findall_json_pattern_infix response 0).
    unfold findall_json_pattern in Hm. now rewrite Hm. }
  destruct (direct_parsing response a3) as [v4|a4] eqn:H4; [|discriminate].
  intros [= <-]. unfold direct_parsing in H4.
  destruct (json_loads (strip response)) as [v'|e] eqn:Hj; [|discriminate].
  injection H4 as <-. exists response. split; [apply infix_refl | exact Hj].
Qed.

(** X8.  A fence that is opened and never closed is recorded, not skipped:
    when extraction fails on a response whose first delimiter of a block
    labelled json has no fence after it, the error lists the attempt
    [Found opening ```json but no closing ```]. *)
Theorem unclosed_labelled_block_is_recorded (response : string)
    (opening : nat) (e : exn) :
  first_occurrence "```json" response 0 opening ->
  (forall k, opening + 7 <= k -> ~ occurs_at "```" response k) ->
  extract_json_from_response response = Raise e ->
  exists attempts,
    str_of_exn e = error_msg attempts response
    /\ In "Markdown JSON blocks: Found opening ```json but no closing ```"
          attempts.
Proof.
  intros Hopen Hnone.
  apply find_first_occurrence in Hopen; [|discriminate].
  assert (Hclose : find "```" response (opening + 7) = None).
  { unfold find. destruct (index (opening + 7) "```" response) as [m|] eqn:E;
      [|reflexivity].
    exfalso. apply (Hnone m).
    - now apply index_lower_bound in E.
    - exact (index_correct1 _ _ _ _ E). }
  unfold extract_json_from_response, run_strategies, then_try.
  unfold markdown_json_block at 1. rewrite Hopen, Hclose.
  destruct (generic_code_block response _) as [v|a2] eqn:H2; [discriminate|].
  destruct (regex_pattern response a2) as [v|a3] eqn:H3; [discriminate|].
  destruct (direct_parsing response a3) as [v|a4] eqn:H4; [discriminate|].
  intros [= <-]. cbn [str_of_exn].
  apply generic_code_block_attempts in H2 as (n2 & -> & _).
  apply regex_pattern_attempts in H3 as (n3 & -> & _).
  apply direct_parsing_attempts in H4 as (n4 & -> & _).
  eexists. split; [reflexivity|].
  unfold append. rewrite <- !app_assoc. cbn [app]. now left.
Qed.

End Soundness.

Lemma extracted_value_is_parsed_from_response_witness :
  exists text,
    infix text ("Here it is: " ++ Examples.fenced_reply)
    /\ Reference.json_loads_ref (strip text) = inl Examples.ok_value.
Proof.
  apply (@extracted_value_is_parsed_from_response Reference.libraries).
  vm_compute. reflexivity.
Defined.

Lemma unclosed_labelled_block_is_recorded_witness :
  exists attempts,
    @extract_json_from_response Reference.libraries
      ("```json" ++ nl ++ "not closed")
    = Raise (mk_exn ValueError
               (error_msg attempts ("```json" ++ nl ++ "not closed")))
    /\ In "Markdown JSON blocks: Found opening ```json but no closing ```"
          attempts.
Proof.
  destruct (@extract_json_from_response Reference.libraries
              ("```json" ++ nl ++ "not closed")) as [v|e] eqn:Hx;
    [vm_compute in Hx; discriminate|].
  destruct (@unclosed_labelled_block_is_recorded Reference.libraries
              ("```json" ++ nl ++ "not closed") 0 e) as (attempts & Hm & Hin).
  - now apply first_occurrence_of_find.
  - intros k Hk Hocc.
    assert (Hnone : index 7 "```" ("```json" ++ nl ++ "not closed") = None)
      by reflexivity.
    exact (index_correct3 _ k _ _ Hnone ltac:(discriminate) Hk Hocc).
  - exact Hx.
  - exists attempts. split; [|exact Hin].
    destruct e as [c m]. cbn in Hm. subst m.
    vm_compute in Hx. injection Hx as <- _. reflexivity.
Defined.

(** *** More on the validator *)

Section MoreValidation.
Context `{Libraries}.

Lemma check_schema_ok (v : value) (schema : dict) :
  check_schema v schema = Ok tt
  <-> truthy_dict schema = false \/ jsonschema_validate v schema = SchemaValid.
Proof.
  unfold check_schema. destruct (truthy_dict schema).
  - destruct (jsonschema_validate v schema).
    + split; [now right | reflexivity].
    + split; [discriminate | intros [?|?]; discriminate].
    + split; [discriminate | intros [?|?]; discriminate].
  - split; [now left | reflexivity].
Qed.

(** X9.  Both checks run: validation succeeds exactly when the schema, if
    any is given, accepts the value, and the value has every expected key
    with the expected value, if any is expected. *)
Theorem validation_succeeds_iff_both_checks_pass (v : value)
    (expected schema : dict) :
  validate_json_response v expected schema = Ok tt
  <-> (truthy_dict schema = false
       \/ jsonschema_validate v schema = SchemaValid)
      /\ (expected = [] \/ expected_subset v expected).
Proof.
  rewrite <- check_schema_ok. unfold validate_json_response.
  destruct (check_schema v schema) as [[]|e]; cbn [bind].
  - destruct expected as [|kv expected]; cbn [truthy_dict].
    + split; [now split; [|left] | reflexivity].
    + rewrite check_expected_subset by discriminate. split.
      * intros Hsub. split; [reflexivity | now right].
      * intros [_ [Hnil|Hsub]]; [discriminate | exact Hsub].
  - split; [discriminate | now intros [? _]].
Qed.

(** X10.  Keys of the response that are not expected play no part: with no
    schema, two mappings that agree on the expected keys get the same
    verdict, with the same error if any. *)
Theorem unexpected_keys_are_ignored (d d' : dict) (expected : dict) :
  (forall key expected_value,
     In (key, expected_value) expected -> dict_get d key = dict_get d' key) ->
  validate_json_response (VDict d) expected []
  = validate_json_response (VDict d') expected [].
Proof.
  intros Hagree. unfold validate_json_response, check_schema.
  cbn [truthy_dict bind]. destruct (truthy_dict expected); [|reflexivity].
  induction expected as [|[key ev] expected IH]; [reflexivity|].
  cbn [check_expected py_contains py_getitem bind].
  rewrite <- (Hagree key ev (or_introl eq_refl)).
  destruct (dict_get d key) as [a|]; cbn [negb bind]; [|reflexivity].
  destruct (py_eq a ev); cbn [negb]; [|reflexivity].
  apply IH. intros k e Hin. apply (Hagree k e). now right.
Qed.

(** X11.  On a mapping, validation fails with an [AssertionError] only,
    unless the schema itself is invalid, which leaves as a [SchemaError]. *)
Theorem validation_failure_class (d expected schema : dict) (e : exn) :
  validate_json_response (VDict d) expected schema = Raise e ->
  exn_class_of e = AssertionError
  \/ (exn_class_of e = SchemaError
      /\ exists message,
           jsonschema_validate (VDict d) schema = SchemaInvalid message).
Proof.
  unfold validate_json_response, check_schema.
  destruct (truthy_dict schema).
  - destruct (jsonschema_validate (VDict d) schema) as [|m|m] eqn:Hv;
      cbn [bind].
    + destruct (truthy_dict expected); [|discriminate].
      intros Hx. apply check_expected_failure in Hx
        as (k & ev & _ & [[_ ->] | (a & _ & _ & ->)]); now left.
    + intros [= <-]. now left.
    + intros [= <-]. right. split; [reflexivity | now exists m].
  - cbn [bind]. destruct (truthy_dict expected); [|discriminate].
    intros Hx. apply check_expected_failure in Hx
      as (k & ev & _ & [[_ ->] | (a & _ & _ & ->)]); now left.
Qed.

End MoreValidation.

Lemma validation_succeeds_iff_both_checks_pass_witness :
  @validate_json_response Reference.libraries Examples.ok_value []
    [("required", VList [VStr "status"])]
  = Ok tt.
Proof.
  apply (@validation_succeeds_iff_both_checks_pass Reference.libraries).
  split; [now right | now left].
Defined.

Lemma unexpected_keys_are_ignored_witness :
  @validate_json_response Reference.libraries
    (VDict [("status", VStr "ok"); ("elapsed", VInt 12)])
    [("status", VStr "ok")] []
  = @validate_json_response Reference.libraries Examples.ok_value
      [("status", VStr "ok")] [].
Proof.
  apply (@unexpected_keys_are_ignored Reference.libraries).
  intros key ev [[= <- <-]|[]]. reflexivity.
Defined.

Lemma validation_failure_class_witness :
  exists e,
    @validate_json_response Reference.libraries
      (VDict [("status", VStr "no")]) [("status", VStr "ok")] []
    = Raise e
    /\ exn_class_of e = AssertionError.
Proof.
  eexists. split; [reflexivity|].
  destruct (@validation_failure_class Reference.libraries
              [("status", VStr "no")] [("status", VStr "ok")] [] _ eq_refl)
    as [Hclass | [Hclass _]]; [exact Hclass | discriminate Hclass].
Defined.

(** ** Further properties of the framework *)

(** *** The loader *)

Lemma build_turns_map (turns_data : list turn_data) :
  forall turns_ out,
    build_turns turns_data turns_ = Ok out ->
    exists built,
      out = app turns_ built
      /\ map turn_of turns_data = map Some built.
Proof.
  induction turns_data as [|td tds IH]; intros turns_ out;
    cbn [build_turns].
  - intros [= <-]. exists []. now rewrite app_nil_r.
  - destruct (yaml_prompt td) as [p|] eqn:Hp; cbn [getitem bind];
      [|discriminate].
    intros Hrest. destruct (IH _ _ Hrest) as (built & -> & Hmap).
    eexists (_ :: built). unfold append. rewrite <- app_assoc.
    split; [reflexivity|]. cbn [map]. rewrite Hmap.
    unfold turn_of. now rewrite Hp.
Qed.



Lemma WRPTestCase_init_fields (td : test_data) (c : WRPTestCase) :
  WRPTestCase_init td = Ok c ->
  yaml_name td = Some (name c)
  /\ yaml_description td = Some (description c)
  /\ yaml_mcps td = Some (mcps c)
  /\ timeout c = get (yaml_timeout td) 30%Z
  /\ map turn_of (get (yaml_turns td) []) = map Some (turns c).
Proof.
  unfold WRPTestCase_init.
  destruct (yaml_name td) as [n|]; cbn [getitem bind]; [|discriminate].
  destruct (yaml_description td) as [ds|]; cbn [getitem bind]; [|discriminate].
  destruct (yaml_mcps td) as [m|]; cbn [getitem bind]; [|discriminate].
  destruct (build_turns (get (yaml_turns td) []) []) as [ts|e] eqn:Hb;
    cbn [bind]; [|discriminate].
  intros [= <-]. cbn [name description mcps timeout turns].
  apply build_turns_map in Hb as (built & -> & Hmap).
  repeat split; try reflexivity. exact Hmap.
Qed.

(** X12.  A constructed test case carries the name, the description and the
    [mcps] block of its entry, the timeout of the entry or 30 when the entry
    has none, and one turn per declared turn, in the declared order, with
    empty mappings where [expected_json] or [json_schema] is absent. *)
Theorem constructed_case_mirrors_entry (td : test_data) (c : WRPTestCase) :
  WRPTestCase_init td = Ok c ->
  yaml_name td = Some (name c)
  /\ yaml_description td = Some (description c)
  /\ yaml_mcps td = Some (mcps c)
  /\ timeout c = get (yaml_timeout td) 30%Z
  /\ map turn_of (get (yaml_turns td) []) = map Some (turns c).
Proof. apply WRPTestCase_init_fields. Qed.





Lemma constructed_case_mirrors_entry_witness :
  timeout Examples.zero_turn_case = 30%Z.
Proof.
  exact (proj1 (proj2 (proj2 (proj2
           (constructed_case_mirrors_entry
              (mk_test_data (Some "empty") (Some "no turn") (Some VNone) None
                            (Some []))
              Examples.zero_turn_case eq_refl))))).
Defined.





(** *** The process driver *)

(** X15.  The driver returns the output only of a child that was created
    and exited with code 0; what it returns is the standard output,
    trimmed. *)
Theorem output_only_on_exit_code_zero (self : WRPTestRunner)
    (provider input_text : string) (timeout_ : Z) (w : world)
    (full_output : string) :
  fst (_execute_wrp_subprocess self provider input_text timeout_ w)
  = Ok full_output
  <-> exists respond stdout stderr,
        child w (spawned w) = Spawned respond
        /\ respond input_text = Exits 0 stdout stderr
        /\ full_output = strip stdout.
Proof.
  unfold _execute_wrp_subprocess, execute_wrp_body.
  cbn [emit child spawned sys_executable log next_child].
  destruct (child w (spawned w)) as [e|respond] eqn:Hchild; cbn [fst try_except].
  - split; [discriminate | now intros (? & ? & ? & [=] & _)].
  - destruct (respond input_text) as [rc out err|] eqn:Hr.
    + destruct (rc =? 0)%Z eqn:Hrc; cbn [negb fst try_except].
      * apply Z.eqb_eq in Hrc. subst rc. split.
        -- intros [= <-]. now exists respond, out, err.
        -- intros (r' & o' & e' & [= <-] & Hr' & ->).
           rewrite Hr in Hr'. now injection Hr' as <- _.
      * split; [discriminate|].
        intros (r' & o' & e' & [= <-] & Hr' & _).
        rewrite Hr in Hr'. injection Hr' as -> _ _. discriminate.
    + cbn [fst try_except]. split; [discriminate|].
      intros (r' & o' & e' & [= <-] & Hr' & _). congruence.
Qed.

Lemma output_only_on_exit_code_zero_witness :
  fst (_execute_wrp_subprocess (Examples.runner 1) "gemini"
         "return the status" 1 Examples.always_good)
  = Ok Examples.good_transcript.
Proof.
  apply output_only_on_exit_code_zero.
  exists (fun _ => Exits 0 Examples.good_transcript EmptyString),
         Examples.good_transcript, EmptyString.
  repeat split.
Defined.

(** X16.  Every failure of the driver leaves as a [RuntimeError] whose
    message is [WRP execution failed: ] followed by the cause: the error of
    the failed creation, the exit code with the standard error of the
    child, or the timeout. *)
Theorem driver_failures (self : WRPTestRunner)
    (provider input_text : string) (timeout_ : Z) (w : world) (e : exn) :
  fst (_execute_wrp_subprocess self provider input_text timeout_ w)
  = Raise e ->
  exists cause,
    e = mk_exn RuntimeError ("WRP execution failed: " ++ cause)
    /\ match child w (spawned w) with
       | SpawnFails e0 => cause = str_of_exn e0
       | Spawned respond =>
           match respond input_text with
           | Exits returncode _ stderr =>
               returncode <> 0%Z
               /\ cause = "WRP failed with code " ++ str_of_Z returncode
                          ++ ": " ++ stderr
           | Hangs =>
               cause = "WRP process timed out after " ++ str_of_Z timeout_
                       ++ " seconds"
           end
       end.
Proof.
  unfold _execute_wrp_subprocess, execute_wrp_body.
  cbn [emit child spawned sys_executable log next_child].
  destruct (child w (spawned w)) as [e0|respond]; cbn [fst try_except].
  - intros [= <-]. now eexists.
  - destruct (respond input_text) as [rc out err|].
    + destruct (rc =? 0)%Z eqn:Hrc; cbn [negb fst try_except];
        [discriminate|].
      intros [= <-]. eexists. split; [reflexivity|].
      split; [now apply Z.eqb_neq | reflexivity].
    + cbn [fst try_except]. intros [= <-]. now eexists.
Qed.

Lemma driver_failures_witness :
  exists cause,
    mk_exn RuntimeError "WRP execution failed: WRP failed with code 2: usage"
    = mk_exn RuntimeError ("WRP execution failed: " ++ cause)
    /\ (2 <> 0)%Z
    /\ cause = "WRP failed with code " ++ str_of_Z 2 ++ ": " ++ "usage".
Proof.
  exact (driver_failures (Examples.runner 1) "gemini" "return the status" 1
           (mk_world "python"
              (fun _ => Spawned (fun _ => Exits 2 EmptyString "usage")) 0 [])
           _ eq_refl).
Defined.

Lemma execute_world (self : WRPTestRunner)
    (provider input_text : string) (timeout_ : Z) (w : world) :
  let w' := snd (_execute_wrp_subprocess self provider input_text timeout_ w) in
  spawned w' = S (spawned w)
  /\ exists events,
       log w' = app (log w) events
       /\ count_events is_spawn events = 1
       /\ count_events is_sleep events = 0
       /\ count_events is_kill events = count_events is_wait events
       /\ (count_events is_kill events = 1
           <-> exists respond,
                 child w (spawned w) = Spawned respond
                 /\ respond input_text = Hangs).
Proof.
  unfold _execute_wrp_subprocess, execute_wrp_body.
  cbn [emit child spawned sys_executable log next_child].
  destruct (child w (spawned w)) as [e0|respond];
    cbn [snd spawned log emit next_child].
  - split; [reflexivity|]. eexists [_].
    split; [reflexivity|]. repeat split; try reflexivity.
    + discriminate.
    + now intros (? & [=] & _).
  - destruct (respond input_text) as [rc out err|] eqn:Hr.
    + destruct (negb (rc =? 0)%Z); cbn [snd spawned log emit next_child];
        (split; [reflexivity|]); eexists [_; _];
        (split; [now rewrite <- app_assoc|]);
        repeat split; try reflexivity; try discriminate;
        intros (r' & [= <-] & Hr'); congruence.
    + cbn [snd spawned log emit next_child]. split; [reflexivity|]. eexists [_; _; _; _].
      split; [now rewrite <- !app_assoc|].
      repeat split; try reflexivity. intros _. now exists respond.
Qed.



(** *** One trial *)

Section MoreTrial.
Context `{Libraries}.

Lemma check_turn_ok (response : string) (turn : WRPTestTurn) (j : value) :
  check_turn response turn = Ok j
  <-> extract_json_from_response response = Ok j
      /\ validate_json_response j (expected_json turn) (json_schema turn)
         = Ok tt.
Proof.
  unfold check_turn.
  destruct (extract_json_from_response response) as [v|e]; cbn [bind].
  - destruct (validate_json_response v _ _) as [[]|e] eqn:Hv; cbn [bind].
    + split.
      * intros [= <-]. now split.
      * now intros [[= <-] _].
    + split; [discriminate|]. intros [[= <-] Hv']. congruence.
  - split; [discriminate | now intros [? _]].
Qed.

Lemma validate_turns_cons (i : nat) (response : string) (turn : WRPTestTurn)
    (pairs : list (string * WRPTestTurn)) (acc : list value) :
  validate_turns i ((response, turn) :: pairs) acc
  = match check_turn response turn with
    | Ok response_json => validate_turns (S i) pairs (append acc response_json)
    | Raise e =>
        Raise (mk_exn RuntimeError
                 ("Turn " ++ str_of_nat (i + 1) ++ " failed: "
                  ++ str_of_exn e))
    end.
Proof. reflexivity. Qed.

Lemma validate_turns_ok (pairs : list (string * WRPTestTurn)) :
  forall i acc out,
    validate_turns i pairs acc = Ok out ->
    exists jsons,
      out = app acc jsons
      /\ Forall2 (fun p j => check_turn (fst p) (snd p) = Ok j) pairs jsons.
Proof.
  induction pairs as [|[response turn] pairs IH]; intros i acc out.
  - intros [= <-]. exists []. split; [now rewrite app_nil_r | constructor].
  - rewrite validate_turns_cons.
    destruct (check_turn response turn) as [j|e] eqn:Hc; [|discriminate].
    intros Hrest. destruct (IH _ _ _ Hrest) as (jsons & -> & Hall).
    exists (j :: jsons). unfold append. rewrite <- app_assoc.
    split; [reflexivity|]. now constructor.
Qed.

Lemma validate_turns_raise (pairs : list (string * WRPTestTurn)) :
  forall i acc e,
    validate_turns i pairs acc = Raise e ->
    exists before response turn after e0,
      pairs = app before ((response, turn) :: after)
      /\ Forall (fun p => exists j, check_turn (fst p) (snd p) = Ok j) before
      /\ check_turn response turn = Raise e0
      /\ e = mk_exn RuntimeError
               ("Turn " ++ str_of_nat (i + length before + 1) ++ " failed: "
                ++ str_of_exn e0).
Proof.
  induction pairs as [|[response turn] pairs IH]; intros i acc e;
    [discriminate|].
  rewrite validate_turns_cons.
  destruct (check_turn response turn) as [j|e0] eqn:Hc.
  - intros Hrest.
    destruct (IH _ _ _ Hrest) as (before & r & t & after & e1 & -> & Hb & Hr & ->).
    exists ((response, turn) :: before), r, t, after, e1.
    split; [reflexivity|]. split; [constructor; [now exists j | exact Hb]|].
    split; [exact Hr|]. cbn [length]. do 4 f_equal. lia.
  - intros [= <-]. exists [], response, turn, pairs, e0.
    split; [reflexivity|]. split; [constructor|]. split; [exact Hc|].
    cbn [length]. now rewrite Nat.add_0_r.
Qed.

(** X18.  Turns are checked in order and the first one that fails ends the
    trial: the error names its number (from 1) and carries the message of
    the extraction or validation failure; the turns before it passed, the
    turns after it are not looked at. *)
Theorem first_failing_turn_is_reported
    (pairs : list (string * WRPTestTurn)) (e : exn) :
  validate_turns 0 pairs [] = Raise e ->
  exists before response turn after e0,
    pairs = app before ((response, turn) :: after)
    /\ Forall (fun p => exists j, check_turn (fst p) (snd p) = Ok j) before
    /\ check_turn response turn = Raise e0
    /\ e = mk_exn RuntimeError
             ("Turn " ++ str_of_nat (length before + 1) ++ " failed: "
              ++ str_of_exn e0).
Proof. apply validate_turns_raise. Qed.

(** X19.  A trial that passed holds the responses that the segmenter found
    in the output of the child, one per turn, and one extracted value per
    turn, in order, each extracted from the response of its turn and
    validated against the expectations of that turn; it holds no error. *)
Theorem passing_trial_has_one_value_per_turn (self : WRPTestRunner)
    (test_case : WRPTestCase) (provider : string) (w : world) :
  let r := fst (_run_single_test_iteration self test_case provider w) in
  iter_passed r = true ->
  exists input full_output jsons,
    build_input test_case = Ok input
    /\ fst (_execute_wrp_subprocess self provider input (timeout test_case) w)
       = Ok full_output
    /\ iter_response r = RespList (extract_response_content full_output)
    /\ length (extract_response_content full_output)
       = length (turns test_case)
    /\ iter_response_json r = Some jsons
    /\ length jsons = length (turns test_case)
    /\ Forall2
         (fun p j =>
            extract_json_from_response (fst p) = Ok j
            /\ validate_json_response j (expected_json (snd p))
                 (json_schema (snd p)) = Ok tt)
         (combine (extract_response_content full_output) (turns test_case))
         jsons
    /\ iter_error r = None.
Proof.
  unfold _run_single_test_iteration, iteration_body.
  destruct (build_input test_case) as [input|e]; [|discriminate].
  destruct (_execute_wrp_subprocess self provider input (timeout test_case) w)
    as [[full_output|e] w1] eqn:Hrun; [|discriminate].
  unfold check_output.
  destruct (length (extract_response_content full_output)
            =? length (turns test_case)) eqn:Hlen; cbn [negb]; [|discriminate].
  apply Nat.eqb_eq in Hlen.
  destruct (validate_turns 0 _ []) as [jsons|e] eqn:Hv; cbn [bind fst];
    [|discriminate].
  intros _. apply validate_turns_ok in Hv as (js & -> & Hall). cbn [app].
  exists input, full_output, js.
  split; [reflexivity|]. split; [now rewrite Hrun|]. split; [reflexivity|].
  split; [exact Hlen|]. split; [reflexivity|].
  split.
  { apply Forall2_length in Hall. rewrite length_combine in Hall. lia. }
  split; [|reflexivity].
  eapply Forall2_impl; [|exact Hall].
  intros p j Hp. now apply check_turn_ok.
Qed.

(** X20.  A trial never raises, and its result is one of two shapes: passed
    with no error, or failed with an error message, an empty response and
    no extracted value. *)
Theorem trial_result_shapes (self : WRPTestRunner)
    (test_case : WRPTestCase) (provider : string) (w : world) :
  let r := fst (_run_single_test_iteration self test_case provider w) in
  (iter_passed r = true /\ iter_error r = None
   /\ exists responses jsons,
        iter_response r = RespList responses
        /\ iter_response_json r = Some jsons)
  \/ (iter_passed r = false
      /\ iter_response r = RespText EmptyString
      /\ iter_response_json r = None
      /\ exists message, iter_error r = Some message).
Proof.
  unfold _run_single_test_iteration, iteration_body.
  destruct (build_input test_case) as [input|e];
    [|right; cbn; repeat split; now eexists].
  destruct (_execute_wrp_subprocess self provider input (timeout test_case) w)
    as [[full_output|e] w1]; [|right; cbn; repeat split; now eexists].
  unfold check_output.
  destruct (negb _); [right; cbn; repeat split; now eexists|].
  destruct (validate_turns 0 _ []) as [jsons|e]; cbn [bind fst].
  - left. cbn. repeat split. now do 2 eexists.
  - right. cbn. repeat split. now eexists.
Qed.

(** X21.  A test case without turns fails in every trial, on the
    subscript [turns[0]], before any child is created: the world is left as
    it was. *)
Theorem zero_turn_trial_fails (self : WRPTestRunner)
    (test_case : WRPTestCase) (provider : string) (w : world) :
  turns test_case = [] ->
  _run_single_test_iteration self test_case provider w
  = (mk_iteration false (RespText EmptyString) None
                  (Some "list index out of range") None, w).
Proof.
  intros Hnone. unfold _run_single_test_iteration, iteration_body, build_input.
  now rewrite Hnone.
Qed.

(** A trial creates one child when the test case has a turn, and it never
    sleeps. *)
Lemma trial_world (self : WRPTestRunner)
    (test_case : WRPTestCase) (provider : string) (w : world) :
  let w' := snd (_run_single_test_iteration self test_case provider w) in
  spawned w' = (if length (turns test_case) =? 0 then 0 else 1) + spawned w
  /\ exists events,
       log w' = app (log w) events
       /\ count_events is_sleep events = 0
       /\ count_events is_spawn events
          = (if length (turns test_case) =? 0 then 0 else 1).
Proof.
  unfold _run_single_test_iteration, iteration_body.
  destruct (build_input test_case) as [input|e] eqn:Hin.
  - assert (Hne : (length (turns test_case) =? 0) = false).
    { unfold build_input, single_turn_input in Hin.
      destruct (turns test_case) as [|t ts]; [discriminate | reflexivity]. }
    rewrite Hne.
    pose proof (execute_world self provider input
                  (timeout test_case) w) as Hone.
    destruct (_execute_wrp_subprocess self provider input
                (timeout test_case) w) as [r w1].
    cbn [snd] in Hone. destruct Hone as (Hs & events & Hlog & Hsp & Hsl & _).
    assert (Hw : snd (match r with
                      | Ok full_output =>
                          (check_output test_case full_output, w1)
                      | Raise e => (Raise e, w1)
                      end) = w1) by now destruct r.
    destruct (match r with
              | Ok full_output => (check_output test_case full_output, w1)
              | Raise e => (Raise e, w1)
              end) as [r' w2].
    cbn [snd] in Hw. subst w2.
    assert (Hw' : snd (match r' with
                       | Ok result_ => (result_, w1)
                       | Raise e =>
                           (mk_iteration false (RespText EmptyString) None
                              (Some (str_of_exn e)) None, w1)
                       end) = w1) by now destruct r'.
    rewrite Hw'. split; [now rewrite Hs|]. now exists events.
  - assert (Hz : (length (turns test_case) =? 0) = true).
    { unfold build_input in Hin.
      destruct (turns test_case) as [|t [|t' ts]];
        [reflexivity | discriminate | discriminate]. }
    rewrite Hz. cbn [snd]. split; [reflexivity|].
    exists []. now rewrite app_nil_r.
Qed.

End MoreTrial.

Lemma first_failing_turn_is_reported_witness :
  exists e0,
    @validate_turns Reference.libraries 0
      [(Examples.fenced_reply, Examples.status_turn);
       ("I cannot comply.", Examples.status_turn);
       ("never looked at", Examples.status_turn)] []
    = Raise (mk_exn RuntimeError ("Turn 2 failed: " ++ str_of_exn e0)).
Proof.
  destruct (@first_failing_turn_is_reported Reference.libraries
              [(Examples.fenced_reply, Examples.status_turn);
               ("I cannot comply.", Examples.status_turn);
               ("never looked at", Examples.status_turn)] _ eq_refl)
    as (before & response & turn & after & e0 & _).
  eexists. reflexivity.
Defined.

Lemma passing_trial_has_one_value_per_turn_witness :
  exists jsons,
    iter_response_json
      (fst (@_run_single_test_iteration Reference.libraries
              (Examples.runner 1) Examples.one_turn_case "gemini"
              Examples.always_good)) = Some jsons
    /\ length jsons = length (turns Examples.one_turn_case).
Proof.
  destruct (@passing_trial_has_one_value_per_turn Reference.libraries
              (Examples.runner 1) Examples.one_turn_case "gemini"
              Examples.always_good)
    as (input & full_output & jsons & _ & _ & _ & _ & Hj & Hlen & _).
  - vm_compute. reflexivity.
  - exists jsons. now split.
Defined.

Lemma zero_turn_trial_fails_witness :
  fst (@_run_single_test_iteration Reference.libraries (Examples.runner 1)
         Examples.zero_turn_case "gemini" Examples.hanging)
  = mk_iteration false (RespText EmptyString) None
                 (Some "list index out of range") None.
Proof.
  exact (f_equal fst
           (@zero_turn_trial_fails Reference.libraries (Examples.runner 1)
              Examples.zero_turn_case "gemini" Examples.hanging eq_refl)).
Defined.

(** *** The robustness runner *)

Lemma count_events_app (p : event -> bool) (l1 l2 : list event) :
  count_events p (l1 ++ l2) = count_events p l1 + count_events p l2.
Proof. unfold count_events. now rewrite filter_app, length_app. Qed.

Section MoreRunner.
Context `{Libraries}.
Variable self : WRPTestRunner.
Variable test_case : WRPTestCase.
Variable provider : string.

(** The trial as [run_test] calls it. *)
Let trial (w0 : world) : result iteration_result * world :=
  let (r, w1) := _run_single_test_iteration self test_case provider w0 in
  (Ok r, w1).

Lemma run_test_entries (w : world) :
  run_test self test_case provider w
  = (aggregate self
       (entries trial self (Z.to_nat (iteration_count self)) 0 w)
       (count_passed
          (entries trial self (Z.to_nat (iteration_count self)) 0 w)),
     final_world trial self (Z.to_nat (iteration_count self)) w).
Proof. unfold run_test. now rewrite run_test_with_entries. Qed.

Lemma round_world_effects (w : world) :
  let w' := round_world trial self w in
  spawned w' = (if length (turns test_case) =? 0 then 0 else 1) + spawned w
  /\ count_events is_sleep (log w')
     = count_events is_sleep (log w)
       + (if (0 <? wait_time self)%Z then 1 else 0)
  /\ count_events is_spawn (log w')
     = count_events is_spawn (log w)
       + (if length (turns test_case) =? 0 then 0 else 1).
Proof.
  unfold round_world, trial.
  pose proof (trial_world self test_case provider w) as Ht.
  destruct (_run_single_test_iteration self test_case provider w) as [r w1].
  cbn [snd] in *. destruct Ht as (Hs & events & Hlog & Hsl & Hsp).
  destruct (0 <? wait_time self)%Z; cbn [emit spawned log].
  - rewrite Hlog, !count_events_app, Hsl, Hsp. cbn. repeat split; lia.
  - rewrite Hlog, !count_events_app, Hsl, Hsp. repeat split; lia.
Qed.

Lemma final_world_effects (n : nat) :
  forall w,
    let w' := final_world trial self n w in
    spawned w'
    = n * (if length (turns test_case) =? 0 then 0 else 1) + spawned w
    /\ count_events is_sleep (log w')
       = count_events is_sleep (log w)
         + n * (if (0 <? wait_time self)%Z then 1 else 0)
    /\ count_events is_spawn (log w')
       = count_events is_spawn (log w)
         + n * (if length (turns test_case) =? 0 then 0 else 1).
Proof.
  induction n as [|n IH]; intros w; cbn [final_world].
  - cbn. repeat split; lia.
  - destruct (IH (round_world trial self w)) as (Hs & Hsl & Hsp).
    destruct (round_world_effects w) as (Hs1 & Hsl1 & Hsp1).
    cbv zeta in *. rewrite Hs, Hsl, Hsp, Hs1, Hsl1, Hsp1.
    repeat split; lia.
Qed.

(** X22.  A case run raises only when no run is configured: with an
    iteration count of zero or less the loop records nothing and the
    subscript [iterations[-1]] raises [IndexError]; with a positive count
    the run returns a result. *)
Theorem run_raises_iff_no_iteration (w : world) (e : exn) :
  fst (run_test self test_case provider w) = Raise e
  <-> (iteration_count self <= 0)%Z
      /\ e = mk_exn IndexError "list index out of range".
Proof.
  rewrite run_test_entries. cbn [fst].
  set (n := Z.to_nat (iteration_count self)).
  pose proof (entries_length trial self n 0 w) as Hlen.
  destruct (entries trial self n 0 w) as [|r its] eqn:Hentries.
  - cbn in Hlen. assert (iteration_count self <= 0)%Z by lia.
    cbn. split.
    + intros [= <-]. now split.
    + now intros [_ ->].
  - cbn [length] in Hlen. assert (0 < iteration_count self)%Z by lia.
    destruct (aggregate_total self (r :: its)
                (count_passed (r :: its)) ltac:(discriminate))
      as (res & -> & _).
    split; [discriminate | intros [? _]; lia].
Qed.

(** X23.  A case run on a test case with at least one turn creates one
    child per iteration, no more. *)
Theorem one_child_per_iteration (w : world) :
  turns test_case <> [] ->
  let w' := snd (run_test self test_case provider w) in
  spawned w' = spawned w + Z.to_nat (iteration_count self)
  /\ count_events is_spawn (log w')
     = count_events is_spawn (log w) + Z.to_nat (iteration_count self).
Proof.
  intros Hne. rewrite run_test_entries. cbn [snd].
  destruct (final_world_effects (Z.to_nat (iteration_count self)) w)
    as (Hs & _ & Hsp).
  cbv zeta in *. rewrite Hs, Hsp.
  destruct (turns test_case); [contradiction|]. cbn [length Nat.eqb].
  split; lia.
Qed.

(** X24.  With a positive wait time the runner sleeps once after every
    iteration, the last one included; with a wait time of zero or less it
    never sleeps. *)
Theorem one_sleep_per_iteration (w : world) :
  let w' := snd (run_test self test_case provider w) in
  count_events is_sleep (log w')
  = count_events is_sleep (log w)
    + (if (0 <? wait_time self)%Z
       then Z.to_nat (iteration_count self) else 0).
Proof.
  rewrite run_test_entries. cbn [snd].
  destruct (final_world_effects (Z.to_nat (iteration_count self)) w)
    as (_ & Hsl & _).
  cbv zeta in *. rewrite Hsl. destruct (0 <? wait_time self)%Z; lia.
Qed.

End MoreRunner.

Lemma run_raises_iff_no_iteration_witness :
  fst (@run_test Reference.libraries (Examples.runner (-2))
         Examples.one_turn_case "gemini" Examples.always_good)
  = Raise (mk_exn IndexError "list index out of range").
Proof.
  apply run_raises_iff_no_iteration. split; [discriminate | reflexivity].
Defined.

Lemma one_child_per_iteration_witness :
  spawned (snd (@run_test Reference.libraries (Examples.runner 3)
                  Examples.one_turn_case "gemini" Examples.pass_fail_pass))
  = 3.
Proof.
  refine (proj1 (@one_child_per_iteration Reference.libraries
                   (Examples.runner 3) Examples.one_turn_case "gemini"
                   Examples.pass_fail_pass _)).
  discriminate.
Defined.

Lemma one_sleep_per_iteration_witness :
  count_events is_sleep
    (log (snd (@run_test Reference.libraries (Examples.runner 3)
                 Examples.one_turn_case "gemini" Examples.pass_fail_pass)))
  = 3.
Proof.
  exact (@one_sleep_per_iteration Reference.libraries (Examples.runner 3)
           Examples.one_turn_case "gemini" Examples.pass_fail_pass).
Defined.

(** X25.  With one iteration, which is what the constructor of the runner
    configures, the case result is the result of its only trial: the same
    verdict, the same response and the same extracted values. *)
Theorem single_iteration_run_is_its_trial `{Libraries}
    (self : WRPTestRunner) (test_case : WRPTestCase) (provider : string)
    (w : world) :
  iteration_count self = 1%Z ->
  let r := fst (_run_single_test_iteration self test_case provider w) in
  exists res,
    fst (run_test self test_case provider w) = Ok res
    /\ iterations res = [r]
    /\ passed res = iter_passed r
    /\ response res = iter_response r
    /\ response_json res = iter_response_json r
    /\ successful_runs res = (if iter_passed r then 1 else 0)
    /\ total_runs res = 1%Z.
Proof.
  intros Hone. rewrite run_test_entries, Hone. cbn [fst].
  change (Z.to_nat 1) with 1. cbn [entries].
  pose proof (failed_trial_has_no_json self test_case provider w) as Hjson.
  destruct (_run_single_test_iteration self test_case provider w) as [r w1].
  cbn [fst recorded] in *. unfold aggregate, count_passed.
  cbn [filter List.find]. rewrite Hone.
  destruct (iter_passed r) eqn:Hp; cbn [length bind last_item].
  - eexists. repeat split.
  - eexists. repeat split. cbn. symmetry. now apply Hjson.
Qed.

Lemma single_iteration_run_is_its_trial_witness :
  exists res,
    fst (@run_test Reference.libraries (Examples.runner 1)
           Examples.one_turn_case "gemini" Examples.hanging) = Ok res
    /\ passed res = false
    /\ response_json res = None.
Proof.
  destruct (@single_iteration_run_is_its_trial Reference.libraries
              (Examples.runner 1) Examples.one_turn_case "gemini"
              Examples.hanging eq_refl)
    as (res & Hrun & _ & Hp & _ & Hj & _).
  exists res. split; [exact Hrun|]. split; [exact Hp | exact Hj].
Defined.

(** *** The brace pattern *)

Lemma take_cons (n : nat) (c : ascii) (s : string) :
  take (S n) (String c s) = String c (take n s).
Proof. reflexivity. Qed.

Lemma object_body_closes (s : string) :
  forall nested n,
    object_body nested s = Some n ->
    exists body, take n s = body ++ "}".
Proof.
  induction s as [|c s IH]; intros nested n; cbn [object_body];
    [discriminate|].
  destruct (Ascii.eqb c "{") eqn:Ho.
  - destruct nested; [discriminate|].
    destruct (object_body true s) as [k|] eqn:Hk; [|discriminate].
    intros [= <-]. destruct (IH _ _ Hk) as [body Hb].
    exists (String c body). rewrite take_cons, Hb. reflexivity.
  - destruct (Ascii.eqb c "}") eqn:Hc.
    + apply Ascii.eqb_eq in Hc. subst c. destruct nested.
      * destruct (object_body false s) as [k|] eqn:Hk; [|discriminate].
        intros [= <-]. destruct (IH _ _ Hk) as [body Hb].
        exists (String "}" body). rewrite take_cons, Hb. reflexivity.
      * intros [= <-]. exists EmptyString. rewrite take_cons.
        now destruct s.
    + destruct (object_body nested s) as [k|] eqn:Hk; [|discriminate].
      intros [= <-]. destruct (IH _ _ Hk) as [body Hb].
      exists (String c body). rewrite take_cons, Hb. reflexivity.
Qed.

Lemma findall_json_pattern_shape (s : string) :
  forall skip m,
    In m (findall_json_pattern_from skip s) ->
    exists body, m = "{" ++ body ++ "}".
Proof.
  induction s as [|c s IH]; intros skip m; cbn [findall_json_pattern_from];
    [contradiction|].
  destruct skip as [|k]; [|apply IH].
  destruct (Ascii.eqb c "{") eqn:Ho; [|apply IH].
  apply Ascii.eqb_eq in Ho. subst c.
  destruct (object_body false s) as [n|] eqn:Hn; [|apply IH].
  intros [<- | Hin]; [|exact (IH _ _ Hin)].
  destruct (object_body_closes s false n Hn) as [body Hb].
  exists body. rewrite take_cons, Hb. reflexivity.
Qed.

(** X26.  Every candidate that the brace pattern finds is a piece of the
    response that opens with a brace and closes with a brace; a response
    without an opening brace has no candidate. *)
Theorem brace_candidates_are_braced (response : string) :
  (forall m,
     In m (findall_json_pattern response) ->
     infix m response /\ exists body, m = "{" ++ body ++ "}")
  /\ (contains "{" response = false -> findall_json_pattern response = []).
Proof.
  split.
  - intros m Hin. split.
    + exact (findall_json_pattern_infix response 0 m Hin).
    + exact (findall_json_pattern_shape response 0 m Hin).
  - intros Hno.
    destruct (findall_json_pattern response) as [|m ms] eqn:Hm;
      [reflexivity|].
    exfalso.
    assert (Hin : In m (findall_json_pattern response))
      by (rewrite Hm; now left).
    destruct (findall_json_pattern_infix response 0 m Hin)
      as (pre & post & Hresp).
    destruct (findall_json_pattern_shape response 0 m Hin) as [body ->].
    unfold contains, find in Hno.
    destruct (index 0 "{" response) eqn:E; [discriminate|].
    apply (index_correct3 0 (String.length pre) "{" response E);
      [discriminate | lia |].
    rewrite Hresp. clear.
    induction pre as [|x pre IH];
      cbn [String.append String.length substring]; [|exact IH].
    f_equal. match goal with |- substring 0 0 ?y = _ => now destruct y end.
Qed.

Lemma brace_candidates_are_braced_witness :
  findall_json_pattern "nothing to see here" = [].
Proof.
  exact (proj2 (brace_candidates_are_braced "nothing to see here") eq_refl).
Defined.
